(** * RezaJewelryInsta: the watermark-and-upload service

    A shallow embedding of [src/models/image.js]: the mongoose schema, the
    watermark renderer [addWatermarkAndSave], the upload route
    [POST /api/images/upload] and the fetch route
    [GET /api/images/:productName].

    The libraries the service calls (sharp, fs, the S3 client, the clock and
    the MongoDB driver) are collected in one record, [World], whose fields
    answer the calls the handlers make.  Everything the handlers themselves
    compute (string substitution, the S3 parameters, joining the promises,
    the status codes and JSON bodies, the upsert) is written out. *)

From Stdlib Require Import List String Ascii ZArith QArith Lia Bool.
From Stdlib Require Import Strings.Byte Numbers.DecimalString.
From Stdlib Require Qcanon DecimalPos DecimalZ.
From Stdlib Require Import Sorting.Permutation.
Import ListNotations.

Local Open Scope string_scope.
Local Open Scope Z_scope.

(* ================================================================== *)
(** ** JavaScript values used by the service *)

(** A Node [Buffer]. *)
Definition Buffer := list byte.

(** [Buffer.from(str)] and [buf.toString()] on byte strings. *)
Definition Buffer_from (s : string) : Buffer := list_byte_of_string s.
Definition Buffer_toString (b : Buffer) : string := string_of_list_byte b.

(** The JSON values the routes send with [res.json]. *)
#[warnings="-register-all"]
Inductive json : Type :=
| JNull
| JNum (n : Z)
| JStr (s : string)
| JArr (items : list json)
| JObj (fields : list (string * json)).

(** [obj[key]] on an object: the first member of that name. *)
Fixpoint assoc (key : string) (fields : list (string * json)) : option json :=
  match fields with
  | [] => None
  | (k, v) :: rest => if String.eqb k key then Some v else assoc key rest
  end.

(** Member access [v.key]; [None] is JavaScript's [undefined]. *)
Definition member (key : string) (v : json) : option json :=
  match v with
  | JObj fields => assoc key fields
  | _ => None
  end.

(** A path of member accesses, [v.k1.k2...]. *)
Fixpoint path (keys : list string) (v : json) : option json :=
  match keys with
  | [] => Some v
  | k :: ks =>
      match member k v with
      | Some v' => path ks v'
      | None => None
      end
  end.

(** What [res.status(code).json(body)] sends. *)
Record Response := { status : Z; body : json }.

(** The values a rejected promise or a [throw] carries in this file. *)
Inductive JsError :=
| SharpError            (* sharp could not decode, rasterise or encode *)
| FsError               (* fs.readFileSync threw *)
| Error (message : string).   (* [new Error(message)] *)

(** A settled promise (or the result of a [try] block). *)
Inductive settled (A : Type) :=
| Resolved (a : A)
| Rejected (e : JsError).
Arguments Resolved {A} a.
Arguments Rejected {A} e.

Definition andThen {A B} (p : settled A) (k : A -> settled B) : settled B :=
  match p with
  | Resolved a => k a
  | Rejected e => Rejected e
  end.

Notation "'await' x <- p ;; k" := (andThen p (fun x => k))
  (at level 61, x name, p at next level, right associativity).

(** A library call that either answers or throws [e]. *)
Definition orThrow {A} (e : JsError) (o : option A) : settled A :=
  match o with
  | Some a => Resolved a
  | None => Rejected e
  end.

(** [Promise.all]: the results in the order of the promises when all of
    them resolve, a rejection as soon as one rejects.  The reason kept here
    is that of the first rejected promise of the array; the handler only
    logs it, its response does not depend on it. *)
Fixpoint Promise_all {A} (ps : list (settled A)) : settled (list A) :=
  match ps with
  | [] => Resolved []
  | Resolved a :: rest =>
      match Promise_all rest with
      | Resolved l => Resolved (a :: l)
      | Rejected e => Rejected e
      end
  | Rejected e :: _ => Rejected e
  end.

(* ================================================================== *)
(** ** Strings: template literals and [String.prototype.replace] *)

Definition dq : string := String "034"%char EmptyString.   (* a double quote *)
Definition nl : string := String "010"%char EmptyString.   (* a line feed *)

(** [String(n)] for an integer. *)
Definition Number_toString (n : Z) : string :=
  NilZero.string_of_int (Z.to_int n).

(** [String(q)] for the numbers that [metadata.width / 2] produces: an
    integer, or an integer and a half. *)
Definition Number_toString_Q (q : Q) : string :=
  let r := Qred q in
  match Qden r with
  | 1%positive => Number_toString (Qnum r)
  | _ =>
      (if Qnum r <? 0 then "-" else "") ++
      Number_toString (Z.abs (Qnum r) / Z.pos (Qden r)) ++ ".5"
  end.

(** [s.startsWith(p)], returning what follows the prefix. *)
Fixpoint strip_prefix (p s : string) : option string :=
  match p, s with
  | EmptyString, _ => Some s
  | String a p', String b s' =>
      if Ascii.eqb a b then strip_prefix p' s' else None
  | String _ _, EmptyString => None
  end.

(** The first occurrence of [pat] in [s], as the text before it and the
    text after it ([s.indexOf(pat)] with both slices). *)
Fixpoint split_at_first (pat s : string) : option (string * string) :=
  match strip_prefix pat s with
  | Some post => Some (EmptyString, post)
  | None =>
      match s with
      | EmptyString => None
      | String c s' =>
          match split_at_first pat s' with
          | Some (pre, post) => Some (String c pre, post)
          | None => None
          end
      end
  end.

(** ECMAScript's GetSubstitution for a string pattern (no capture groups):
    in the replacement text [$$] stands for a dollar sign, [$&] for the
    matched text, [$`] for the text before the match and [$'] for the text
    after it; every other character is copied. *)
Fixpoint GetSubstitution (matched before after tpl : string) : string :=
  match tpl with
  | EmptyString => EmptyString
  | String c t =>
      if Ascii.eqb c "$" then
        match t with
        | EmptyString => String c EmptyString
        | String d rest =>
            if Ascii.eqb d "$" then
              String "$" (GetSubstitution matched before after rest)
            else if Ascii.eqb d "&" then
              matched ++ GetSubstitution matched before after rest
            else if Ascii.eqb d "`" then
              before ++ GetSubstitution matched before after rest
            else if Ascii.eqb d "'" then
              after ++ GetSubstitution matched before after rest
            else String c (GetSubstitution matched before after t)
        end
      else String c (GetSubstitution matched before after t)
  end.

(** [s.replace(pat, replacement)] with a string pattern: only the first
    occurrence is replaced; [s] is returned as it is when there is none. *)
Definition replace (pat replacement s : string) : string :=
  match split_at_first pat s with
  | None => s
  | Some (pre, post) => pre ++ GetSubstitution pat pre post replacement ++ post
  end.

(** [path.join(dir, name)]. *)
Definition path_join (dir name : string) : string := dir ++ "/" ++ name.

(* ================================================================== *)
(** ** sharp: an image pipeline is built, then run by [toBuffer] *)

Record Metadata := { width : Z; height : Z }.

Record CompositeInput := { input : Buffer; top : Z; left : Z }.

Inductive OutputFormat :=
| AsInput                  (* no format call: keep the input's format *)
| Jpeg (quality : Z).      (* [.jpeg({ quality })] *)

Record Sharp := {
  source : Buffer;
  resizeTo : option (Z * Z);
  overlays : list CompositeInput;
  format : OutputFormat
}.

Definition sharp (b : Buffer) : Sharp :=
  {| source := b; resizeTo := None; overlays := []; format := AsInput |}.

Definition resize (w h : Z) (s : Sharp) : Sharp :=
  {| source := source s; resizeTo := Some (w, h);
     overlays := overlays s; format := format s |}.

Definition composite (l : list CompositeInput) (s : Sharp) : Sharp :=
  {| source := source s; resizeTo := resizeTo s;
     overlays := l; format := format s |}.

Definition jpeg (q : Z) (s : Sharp) : Sharp :=
  {| source := source s; resizeTo := resizeTo s;
     overlays := overlays s; format := Jpeg q |}.

(* ================================================================== *)
(** ** The model [Image] (lines 3-8) and its collection *)

Inductive SchemaType := SString | SArrayOf (elem : SchemaType).

(** The options of one schema path.  [unique] is mongoose's index option; a
    path that does not set it has none. *)
Record SchemaPath := { type : SchemaType; required : bool; unique : bool }.

Definition imageSchema : list (string * SchemaPath) :=
  [ ("productName", {| type := SString; required := true; unique := false |});
    ("Jewellery",
      {| type := SArrayOf SString; required := true; unique := false |}) ].

Fixpoint schema_path (name : string) (s : list (string * SchemaPath))
  : option SchemaPath :=
  match s with
  | [] => None
  | (k, p) :: rest => if String.eqb k name then Some p else schema_path name rest
  end.

(** A document of the model, with one member per schema path (the members
    the driver adds by itself, [_id] and [__v], are left out). *)
Record Image := { productName : string; Jewellery : list string }.

(** The document as [res.json] serialises it. *)
Definition toJSON (d : Image) : json :=
  JObj [ ("productName", JStr (productName d));
         ("Jewellery", JArr (map JStr (Jewellery d))) ].

(** The collection, in insertion order.  Nothing in the schema keeps two
    documents from carrying the same [productName]. *)
Definition Collection := list Image.

(** [Image.findOne({ productName })]: the first match, or [null]. *)
Fixpoint findOne (name : string) (c : Collection) : option Image :=
  match c with
  | [] => None
  | d :: rest => if String.eqb (productName d) name then Some d else findOne name rest
  end.

(** [{ $push: { Jewellery: { $each: urls } } }] applied to the first
    document that matches [{ productName }]; [None] when none matches. *)
Fixpoint pushEach (name : string) (urls : list string) (c : Collection)
  : option (Image * Collection) :=
  match c with
  | [] => None
  | d :: rest =>
      if String.eqb (productName d) name then
        let d' := {| productName := productName d;
                     Jewellery := (Jewellery d ++ urls)%list |} in
        Some (d', d' :: rest)
      else
        match pushEach name urls rest with
        | Some (d', rest') => Some (d', d :: rest')
        | None => None
        end
  end.

(** [Image.findOneAndUpdate({ productName }, { $push ... },
    { new: true, upsert: true })]: the updated document and the collection
    after the write; without a match a document is inserted. *)
Definition findOneAndUpdate (name : string) (urls : list string) (c : Collection)
  : Image * Collection :=
  match pushEach name urls c with
  | Some r => r
  | None =>
      let d := {| productName := name; Jewellery := urls |} in
      (d, (c ++ [d])%list)
  end.

(* ================================================================== *)
(** ** The outside world *)

(** A file as multer's memory storage hands it over. *)
Record File := {
  originalname : string;
  mimetype : string;
  buffer : Buffer
}.

(** The parameters of [s3.upload] and what it resolves to. *)
Record UploadParams := {
  Bucket : option string;
  Key : string;
  Body : Buffer;
  ContentType : string
}.

Record ManagedUpload := { Location : string }.

(** The answers of the libraries and services during one request. *)
Record World := {
  (** [sharp(buf).metadata()]; [None] when sharp rejects. *)
  sharp_metadata : Buffer -> option Metadata;
  (** [pipeline.toBuffer()]; [None] when sharp rejects. *)
  sharp_toBuffer : Sharp -> option Buffer;
  (** [fs.readFileSync(path)]; [None] when it throws. *)
  fs_readFileSync : string -> option Buffer;
  (** [__dirname]. *)
  dirname : string;
  (** [s3.upload(params).promise()]; [None] when the store rejects. *)
  s3_upload : UploadParams -> option ManagedUpload;
  (** [Date.now()] as read while the file of that index is processed. *)
  Date_now : nat -> Z;
  (** [process.env.AWS_S3_BUCKET_NAME]. *)
  AWS_S3_BUCKET_NAME : option string;
  (** Whether MongoDB answers the request's query; otherwise it rejects. *)
  mongo_answers : bool
}.

(** What a request leaves behind, besides its response. *)
Inductive Event :=
| S3Upload (params : UploadParams) (result : option ManagedUpload)
| MongoFindOneAndUpdate (name : string) (urls : list string).

Definition is_S3Upload (e : Event) : bool :=
  match e with S3Upload _ _ => true | _ => false end.

Definition is_MongoWrite (e : Event) : bool :=
  match e with MongoFindOneAndUpdate _ _ => true | _ => false end.

(* ================================================================== *)
(** ** The watermark renderer (lines 50-88) *)

Definition attr (name value : string) : string :=
  name ++ "=" ++ dq ++ value ++ dq.

(** The opening tag of the template literal of lines 66-69. *)
Definition text_open (positionLeft : Q) (positionBottom : Z) : string :=
  "<text " ++ attr "x" (Number_toString_Q positionLeft) ++
  " " ++ attr "y" (Number_toString positionBottom) ++
  " " ++ attr "font-family" "NotoSerifDisplay" ++
  " " ++ attr "font-weight" "bold" ++
  " " ++ attr "font-size" "120" ++
  " " ++ attr "fill" "white" ++
  " " ++ attr "text-anchor" "middle" ++ ">".

(** What follows the opening tag: the label on its own line, the closing
    tag and the [</svg>] that the replacement puts back. *)
Definition text_rest (watermarkText : string) : string :=
  nl ++ "        " ++ watermarkText ++
  nl ++ "      </text>" ++
  nl ++ "      </svg>".

Definition text_element (positionLeft : Q) (positionBottom : Z)
    (watermarkText : string) : string :=
  text_open positionLeft positionBottom ++ text_rest watermarkText.

Definition positionBottom (metadata : Metadata) : Z :=
  height metadata - (2 * 96).

Definition positionLeft (metadata : Metadata) : Q :=
  inject_Z (width metadata) / 2.

(** The SVG that is rasterised over the image (lines 58-70). *)
Definition updatedSvgString (template : string) (metadata : Metadata)
    (watermarkText : string) : string :=
  let svgString := replace "{{PRODUCT_NAME}}" watermarkText template in
  replace "</svg>"
    (text_element (positionLeft metadata) (positionBottom metadata) watermarkText)
    svgString.

(** The pipeline whose [toBuffer] gives the overlay (lines 74-76). *)
Definition overlay_pipeline (svg : string) (metadata : Metadata) : Sharp :=
  resize (width metadata) (height metadata) (sharp (Buffer_from svg)).

(** The pipeline whose [toBuffer] gives the watermarked image (lines 78-81). *)
Definition watermark_pipeline (imageBuffer resizedSvgBuffer : Buffer) : Sharp :=
  jpeg 90
    (composite [ {| input := resizedSvgBuffer; top := 0; left := 0 |} ]
       (sharp imageBuffer)).

Definition addWatermarkAndSave (w : World) (imageBuffer : Buffer)
    (watermarkText : string) : settled Buffer :=
  await metadata <- orThrow SharpError (sharp_metadata w imageBuffer) ;;
  let svgFilePath := path_join (dirname w) "no.svg" in
  await svgBuffer <- orThrow FsError (fs_readFileSync w svgFilePath) ;;
  let svg := updatedSvgString (Buffer_toString svgBuffer) metadata watermarkText in
  await resizedSvgBuffer <-
    orThrow SharpError (sharp_toBuffer w (overlay_pipeline svg metadata)) ;;
  await watermarkedImageBuffer <-
    orThrow SharpError
      (sharp_toBuffer w (watermark_pipeline imageBuffer resizedSvgBuffer)) ;;
  Resolved watermarkedImageBuffer.

(* ================================================================== *)
(** ** [POST /api/images/upload] (lines 96-160) *)

(** The request as the handler sees it, after [upload.array('images', 10)]:
    [req.body.productName] and [req.files], either of which may be
    [undefined]. *)
Record Request := {
  body_productName : option string;
  files : option (list File)
}.

(** The response, the collection after the request and the calls made to
    the object store and to the document store. *)
Record Outcome := {
  response : Response;
  collection : Collection;
  trace : list Event
}.

(** [!productName]: [undefined] and the empty string are falsy. *)
Definition falsy (s : option string) : bool :=
  match s with
  | None => true
  | Some s => String.eqb s ""
  end.

Definition error_body (message : string) : json :=
  JObj [ ("error", JStr message) ].

Definition validation_message : string :=
  "Product name and at least one image are required.".
Definition s3_message : string :=
  "S3 upload failed. Check server logs for details.".
Definition db_message : string :=
  "Failed to save image URLs to the database.".
Definition success_message : string :=
  "Images uploaded and saved successfully!".

(** The S3 parameters of lines 112-117. *)
Definition params (w : World) (index : nat) (file : File)
    (watermarkedBuffer : Buffer) : UploadParams :=
  {| Bucket := AWS_S3_BUCKET_NAME w;
     Key := "products/" ++ Number_toString (Date_now w index) ++ "-" ++
            originalname file;
     Body := watermarkedBuffer;
     ContentType := mimetype file |}.

(** The callback of [req.files.map] (lines 107-124): how the promise of one
    file settles, and the upload it issued, if it got that far. *)
Definition uploadPromise (w : World) (productName : string) (index : nat)
    (file : File) : settled ManagedUpload * list Event :=
  match addWatermarkAndSave w (buffer file) productName with
  | Rejected e => (Rejected e, [])
  | Resolved watermarkedBuffer =>
      let p := params w index file watermarkedBuffer in
      match s3_upload w p with
      | Some data => (Resolved data, [S3Upload p (Some data)])
      | None =>
          (Rejected (Error ("S3 upload failed for '" ++ originalname file ++ "'.")),
           [S3Upload p None])
      end
  end.

(** [req.files.map(...)], with the index of each file. *)
Fixpoint uploadPromises (w : World) (productName : string) (index : nat)
    (fs : list File) : list (settled ManagedUpload * list Event) :=
  match fs with
  | [] => []
  | file :: rest =>
      uploadPromise w productName index file ::
      uploadPromises w productName (S index) rest
  end.

(** [!req.files || req.files.length === 0]. *)
Definition no_files (fs : option (list File)) : bool :=
  match fs with
  | None => true
  | Some l => (List.length l =? 0)%nat
  end.

Definition bad_request (c : Collection) : Outcome :=
  {| response := {| status := 400; body := error_body validation_message |};
     collection := c; trace := [] |}.

(** The handler.  Every promise of the batch runs to its end whatever the
    others do, so the trace holds the uploads of all the files that were
    rendered, also when the join rejects.  The uploads are listed file by
    file; the code issues each one when its render is done, in whatever
    order that happens, so only membership in the trace and the place of the
    database write after the uploads are meant.  The outer [catch] of line
    156 has nothing left to catch here: each awaited call sits in a [try]
    of its own. *)
Definition upload_handler (w : World) (req : Request) (c : Collection)
  : Outcome :=
  if falsy (body_productName req) || no_files (files req) then bad_request c
  else
    match body_productName req, files req with
    | Some productName, Some fs =>
        let promises := uploadPromises w productName 0 fs in
        let uploads := List.concat (map snd promises) in
        match Promise_all (map fst promises) with
        | Rejected uploadError =>
            {| response := {| status := 500; body := error_body s3_message |};
               collection := c; trace := uploads |}
        | Resolved s3Results =>
            let imageUrls := map Location s3Results in
            let write := MongoFindOneAndUpdate productName imageUrls in
            if mongo_answers w then
              let (updatedProduct, c') := findOneAndUpdate productName imageUrls c in
              {| response :=
                   {| status := 201;
                      body := JObj [ ("message", JStr success_message);
                                     ("product", toJSON updatedProduct) ] |};
                 collection := c';
                 trace := (uploads ++ [write])%list |}
            else
              {| response := {| status := 500; body := error_body db_message |};
                 collection := c;
                 trace := (uploads ++ [write])%list |}
        end
    | _, _ => bad_request c   (* not reached: both are defined past the guard *)
    end.

(* ================================================================== *)
(** ** [GET /api/images/:productName] (lines 163-175) *)

Definition fetch_handler (w : World) (productName : string) (c : Collection)
  : Response :=
  if mongo_answers w then
    match findOne productName c with
    | None => {| status := 404; body := error_body "Product not found" |}
    | Some images => {| status := 200; body := toJSON images |}
    end
  else {| status := 500; body := error_body "Failed to fetch images" |}.

(* ================================================================== *)
(** ** Predicates used by the statements *)

(** The locations the uploader returned for a batch, in the order of the
    files, when every file was rendered and stored. *)
Definition batch_locations (w : World) (productName : string) (fs : list File)
  : option (list string) :=
  match Promise_all (map fst (uploadPromises w productName 0 fs)) with
  | Resolved s3Results => Some (map Location s3Results)
  | Rejected _ => None
  end.

(** The image locations recorded for a name: those of the first record of
    that name, none when there is no record. *)
Definition recorded (name : string) (c : Collection) : list string :=
  match findOne name c with
  | Some d => Jewellery d
  | None => []
  end.

(** The file of index [i] fails in the renderer. *)
Definition render_fails (w : World) (productName : string) (file : File) : Prop :=
  exists e, addWatermarkAndSave w (buffer file) productName = Rejected e.

(** The file of index [i] is rendered and the object store rejects it. *)
Definition store_rejects (w : World) (productName : string) (i : nat)
    (file : File) : Prop :=
  exists watermarked,
    addWatermarkAndSave w (buffer file) productName = Resolved watermarked /\
    s3_upload w (params w i file watermarked) = None.

(** [b] came out of a sharp pipeline that encodes in format [f]. *)
Definition encoded_as (w : World) (f : OutputFormat) (b : Buffer) : Prop :=
  exists pipeline, format pipeline = f /\ sharp_toBuffer w pipeline = Some b.

(** The media type of JPEG data. *)
Definition jpeg_media_type : string := "image/jpeg".

(** No dollar sign in a replacement text: nothing for GetSubstitution to
    expand. *)
Fixpoint no_dollar (s : string) : bool :=
  match s with
  | EmptyString => true
  | String c t => negb (Ascii.eqb c "$") && no_dollar t
  end.

(* ================================================================== *)
(** ** A small world to run the handlers in *)

Module Demo.

Definition template : string :=
  "<svg><title>{{PRODUCT_NAME}}</title></svg>".

Definition ring : File :=
  {| originalname := "ring.jpg"; mimetype := "image/jpeg";
     buffer := [x01; x02; x03] |}.

Definition necklace : File :=
  {| originalname := "necklace.png"; mimetype := "image/png";
     buffer := [x04; x05] |}.

(** An upload that cannot be decoded: sharp rejects the empty buffer. *)
Definition broken : File :=
  {| originalname := "broken.jpg"; mimetype := "image/jpeg"; buffer := [] |}.

(** sharp decodes every non-empty buffer as a 641 x 480 image; a JPEG
    pipeline answers with the JPEG start-of-image marker and its input. *)
Definition metadata (b : Buffer) : option Metadata :=
  match b with
  | [] => None
  | _ => Some {| width := 641; height := 480 |}
  end.

Definition toBuffer (p : Sharp) : option Buffer :=
  match format p with
  | Jpeg _ => Some (xff :: xd8 :: source p)
  | AsInput => Some (source p)
  end.

(** The object store takes every object but those declared as PNG when
    [rejectPng] is set. *)
Definition upload (rejectPng : bool) (p : UploadParams) : option ManagedUpload :=
  if rejectPng && String.eqb (ContentType p) "image/png" then None
  else Some {| Location := "https://jewels.s3.amazonaws.com/" ++ Key p |}.

Definition world (rejectPng mongo : bool) : World :=
  {| sharp_metadata := metadata;
     sharp_toBuffer := toBuffer;
     fs_readFileSync := fun _ => Some (Buffer_from template);
     dirname := "/app";
     s3_upload := upload rejectPng;
     Date_now := fun i => 1700000000000 + Z.of_nat i;
     AWS_S3_BUCKET_NAME := Some "jewels";
     mongo_answers := mongo |}.

Definition calm : World := world false true.
Definition picky : World := world true true.

Definition request (name : string) (fs : list File) : Request :=
  {| body_productName := Some name; files := Some fs |}.

End Demo.

(* ================================================================== *)
(** ** The collection as MongoDB keeps it *)

(** MongoDB stores documents, not values of the model: any JSON object can
    sit in the collection.  The operations of the upload route are written
    here on stored documents (the members the driver adds by itself, [_id]
    and [__v], are left out, as in [toJSON]). *)

(** A value of the type a schema path declares. *)
Fixpoint has_type (t : SchemaType) (v : json) : bool :=
  match t, v with
  | SString, JStr _ => true
  | SArrayOf elem, JArr items => forallb (has_type elem) items
  | _, _ => false
  end.

(** The members of a document follow the schema: a path that is there has
    the declared type, a required path is there, nothing else is. *)
Fixpoint conforms_members (schema : list (string * SchemaPath))
    (members : list (string * json)) : bool :=
  match schema with
  | [] => match members with [] => true | _ :: _ => false end
  | (p, spec) :: rest =>
      match members with
      | (k, v) :: members' =>
          if String.eqb k p
          then has_type (type spec) v && conforms_members rest members'
          else negb (required spec) && conforms_members rest members
      | [] => negb (required spec) && conforms_members rest []
      end
  end.

Definition conforms (schema : list (string * SchemaPath)) (doc : json) : bool :=
  match doc with
  | JObj members => conforms_members schema members
  | _ => false
  end.

(** The filter [{ productName: name }] on a stored document: the member is
    that string, or an array that holds it. *)
Definition is_string (name : string) (v : json) : bool :=
  match v with
  | JStr s => String.eqb s name
  | _ => false
  end.

Definition matches (name : string) (doc : json) : bool :=
  match member "productName" doc with
  | Some (JStr s) => String.eqb s name
  | Some (JArr items) => existsb (is_string name) items
  | _ => false
  end.

(** [obj[key] = v]: the first member of that name is replaced, a member
    that is not there is added last. *)
Fixpoint set_member (key : string) (v : json) (members : list (string * json))
  : list (string * json) :=
  match members with
  | [] => [(key, v)]
  | (k, x) :: rest =>
      if String.eqb k key then (k, v) :: rest
      else (k, x) :: set_member key v rest
  end.

(** [{ $push: { Jewellery: { $each: urls } } }] on one stored document;
    [None] when MongoDB rejects the update, the member being there and not
    an array. *)
Definition push_Jewellery (urls : list string) (doc : json) : option json :=
  match doc with
  | JObj members =>
      match assoc "Jewellery" members with
      | None =>
          Some (JObj (set_member "Jewellery" (JArr (map JStr urls)) members))
      | Some (JArr items) =>
          Some (JObj (set_member "Jewellery"
                        (JArr (items ++ map JStr urls)%list) members))
      | Some _ => None
      end
  | _ => None
  end.

Inductive Written :=
| NoMatch
| WriteError
| Updated (doc : json) (stored : list json).

(** The update applied to the first document that matches. *)
Fixpoint update_first (name : string) (urls : list string) (stored : list json)
  : Written :=
  match stored with
  | [] => NoMatch
  | doc :: rest =>
      if matches name doc then
        match push_Jewellery urls doc with
        | Some doc' => Updated doc' (doc' :: rest)
        | None => WriteError
        end
      else
        match update_first name urls rest with
        | Updated doc' rest' => Updated doc' (doc :: rest')
        | NoMatch => NoMatch
        | WriteError => WriteError
        end
  end.

(** [Image.findOneAndUpdate({ productName }, { $push ... },
    { new: true, upsert: true })] on the stored documents, for a string
    [productName]: the document after the update and the collection after
    the write, [None] when the write is rejected.  Without a match the
    document inserted has the member of the filter and the pushed array. *)
Definition stored_findOneAndUpdate (name : string) (urls : list string)
    (stored : list json) : option (json * list json) :=
  match update_first name urls stored with
  | Updated doc stored' => Some (doc, stored')
  | WriteError => None
  | NoMatch =>
      let doc := JObj [ ("productName", JStr name);
                        ("Jewellery", JArr (map JStr urls)) ] in
      Some (doc, (stored ++ [doc])%list)
  end.

(** The upload route on the stored documents: its status, the documents
    after the request and its calls.  (The body of a 201 is the document as
    mongoose reads it back; it is given by [upload_handler].) *)
Record StoredOutcome := {
  stored_status : Z;
  stored_after : list json;
  stored_trace : list Event
}.

Definition upload_on_stored (w : World) (req : Request)
    (stored : list json) : StoredOutcome :=
  if falsy (body_productName req) || no_files (files req) then
    {| stored_status := 400; stored_after := stored; stored_trace := [] |}
  else
    match body_productName req, files req with
    | Some productName, Some fs =>
        let promises := uploadPromises w productName 0 fs in
        let uploads := List.concat (map snd promises) in
        match Promise_all (map fst promises) with
        | Rejected uploadError =>
            {| stored_status := 500; stored_after := stored;
               stored_trace := uploads |}
        | Resolved s3Results =>
            let imageUrls := map Location s3Results in
            let write := MongoFindOneAndUpdate productName imageUrls in
            if mongo_answers w then
              match stored_findOneAndUpdate productName imageUrls stored with
              | Some (updatedProduct, stored') =>
                  {| stored_status := 201; stored_after := stored';
                     stored_trace := (uploads ++ [write])%list |}
              | None =>
                  {| stored_status := 500; stored_after := stored;
                     stored_trace := (uploads ++ [write])%list |}
              end
            else
              {| stored_status := 500; stored_after := stored;
                 stored_trace := (uploads ++ [write])%list |}
        end
    | _, _ =>
        {| stored_status := 400; stored_after := stored; stored_trace := [] |}
    end.

(** The documents after a series of upload requests, each in its world. *)
Fixpoint serve (requests : list (World * Request)) (stored : list json)
  : list json :=
  match requests with
  | [] => stored
  | (w, req) :: rest => serve rest (stored_after (upload_on_stored w req stored))
  end.

(** The product names of the stored documents. *)
Definition stored_names (stored : list json) : list (option json) :=
  map (member "productName") stored.

(* ================================================================== *)
(** ** Further predicates and scenarios *)

(** The location an event put into the object store, if it put one. *)
Definition uploaded_location (e : Event) : option string :=
  match e with
  | S3Upload _ (Some data) => Some (Location data)
  | _ => None
  end.

(** A string of decimal digits. *)
Definition is_digit (c : ascii) : bool :=
  ((48 <=? nat_of_ascii c) && (nat_of_ascii c <=? 57))%nat.

Fixpoint all_digits (s : string) : bool :=
  match s with
  | EmptyString => true
  | String c t => is_digit c && all_digits t
  end.

Module Cases.

(** MongoDB rejects every query. *)
Definition offline : World := Demo.world false false.

(** The overlay template cannot be read. *)
Definition no_template : World :=
  {| sharp_metadata := Demo.metadata;
     sharp_toBuffer := Demo.toBuffer;
     fs_readFileSync := fun _ => None;
     dirname := "/app";
     s3_upload := Demo.upload false;
     Date_now := fun i => 1700000000000 + Z.of_nat i;
     AWS_S3_BUCKET_NAME := Some "jewels";
     mongo_answers := true |}.

(** A template with two closing tags, and one with none. *)
Definition two_closings : string := "<svg><g></svg></g></svg>".
Definition unclosed : string := "<svg><title>{{PRODUCT_NAME}}</title>".

Definition md : Metadata := {| width := 641; height := 480 |}.

End Cases.

(* ================================================================== *)
(** * Properties *)

(** ** Joining the promises of a batch *)

Section Joining.
Context {A : Type}.
Implicit Types (ps : list (settled A)) (l : list A).

Lemma Promise_all_resolved ps l :
  Promise_all ps = Resolved l -> ps = map Resolved l.
Proof.
  revert l; induction ps as [|[a|e] ps IH]; intros l H; simpl in H.
  - now inversion H.
  - destruct (Promise_all ps) as [l'|e'] eqn:E; inversion H; subst.
    simpl; f_equal; now apply IH.
  - discriminate.
Qed.

Lemma Promise_all_of_resolved l : Promise_all (map Resolved l) = Resolved l.
Proof.
  induction l as [|a l IH]; simpl; [reflexivity|now rewrite IH].
Qed.

Lemma Promise_all_rejects ps e :
  In (Rejected e) ps -> exists e', Promise_all ps = Rejected e'.
Proof.
  induction ps as [|[a|e0] ps IH]; simpl; intros H.
  - contradiction.
  - destruct H as [H|H]; [discriminate|].
    destruct (IH H) as [e' ->]; now exists e'.
  - now exists e0.
Qed.

Lemma Promise_all_length ps l :
  Promise_all ps = Resolved l -> List.length l = List.length ps.
Proof.
  intros H; apply Promise_all_resolved in H; subst.
  now rewrite length_map.
Qed.
End Joining.

(** ** One file of a batch *)

Section OneFile.
Variables (w : World) (name : string).

(** The three ways the callback of one file ends. *)
Lemma uploadPromise_cases i file :
  (exists e, addWatermarkAndSave w (buffer file) name = Rejected e /\
             uploadPromise w name i file = (Rejected e, [])) \/
  (exists b d, addWatermarkAndSave w (buffer file) name = Resolved b /\
               s3_upload w (params w i file b) = Some d /\
               uploadPromise w name i file =
                 (Resolved d, [S3Upload (params w i file b) (Some d)])) \/
  (exists b e, addWatermarkAndSave w (buffer file) name = Resolved b /\
               s3_upload w (params w i file b) = None /\
               uploadPromise w name i file =
                 (Rejected e, [S3Upload (params w i file b) None])).
Proof.
  unfold uploadPromise.
  destruct (addWatermarkAndSave w (buffer file) name) as [b|e].
  - destruct (s3_upload w (params w i file b)) as [d|] eqn:E.
    + right; left; now exists b, d.
    + right; right; eexists b, _; now repeat split.
  - left; now exists e.
Qed.

Lemma uploadPromises_length i fs :
  List.length (uploadPromises w name i fs) = List.length fs.
Proof.
  revert i; induction fs as [|f fs IH]; intros i; simpl; auto.
Qed.

(** Every event of the batch is an upload, issued for one of its files
    with that file's parameters. *)
Lemma uploads_origin i fs ev :
  In ev (List.concat (map snd (uploadPromises w name i fs))) ->
  exists k file b,
    nth_error fs k = Some file /\
    addWatermarkAndSave w (buffer file) name = Resolved b /\
    ev = S3Upload (params w (i + k) file b) (s3_upload w (params w (i + k) file b)).
Proof.
  revert i; induction fs as [|f fs IH]; intros i; simpl; [contradiction|].
  rewrite in_app_iff; intros [H|H].
  - exists 0%nat, f. rewrite Nat.add_0_r.
    destruct (uploadPromise_cases i f)
      as [(e & Hr & E)|[(b & d & Hr & Hs & E)|(b & e & Hr & Hs & E)]];
      rewrite E in H; simpl in H; try contradiction; destruct H as [<-|[]];
      exists b; rewrite Hs; auto.
  - destruct (IH _ H) as (k & file & b & Hk & Hr & ->).
    exists (S k), file, b. now rewrite Nat.add_succ_r.
Qed.

(** An upload the store rejected makes the join reject. *)
Lemma rejected_upload_rejects_join i fs p :
  In (S3Upload p None) (List.concat (map snd (uploadPromises w name i fs))) ->
  exists e, Promise_all (map fst (uploadPromises w name i fs)) = Rejected e.
Proof.
  revert i; induction fs as [|f fs IH]; intros i; simpl; [contradiction|].
  rewrite in_app_iff; intros [H|H].
  - destruct (uploadPromise_cases i f)
      as [(e & _ & E)|[(b & d & _ & _ & E)|(b & e & _ & _ & E)]];
      rewrite E in H |- *; simpl in *.
    + contradiction.
    + destruct H as [H|[]]; discriminate.
    + now exists e.
  - destruct (IH _ H) as [e ->].
    destruct (fst (uploadPromise w name i f)); eauto.
Qed.
End OneFile.

(** ** The upload route, case by case *)

Section UploadRoute.
Variables (w : World) (c : Collection).

Lemma upload_handler_invalid req :
  falsy (body_productName req) || no_files (files req) = true ->
  upload_handler w req c = bad_request c.
Proof. unfold upload_handler; now intros ->. Qed.

Lemma upload_handler_valid req :
  falsy (body_productName req) || no_files (files req) = false ->
  exists name fs,
    body_productName req = Some name /\ files req = Some fs /\
    name <> "" /\ fs <> [].
Proof.
  destruct req as [[n|] [fs|]]; simpl; try discriminate.
  - intros H; apply orb_false_elim in H as [Hn Hf].
    exists n, fs; repeat split; auto.
    + intros ->; discriminate.
    + intros ->; discriminate.
  - rewrite orb_true_r; discriminate.
Qed.

Lemma valid_request_check name fs :
  name <> "" -> fs <> [] ->
  falsy (Some name) || no_files (Some fs) = false.
Proof.
  intros Hn Hf; simpl.
  destruct (String.eqb_spec name ""); [contradiction|].
  destruct fs; [contradiction|reflexivity].
Qed.

(** The join rejected: status 500, nothing written. *)
Lemma upload_handler_join_rejected name fs e :
  name <> "" -> fs <> [] ->
  Promise_all (map fst (uploadPromises w name 0 fs)) = Rejected e ->
  upload_handler w {| body_productName := Some name; files := Some fs |} c =
    {| response := {| status := 500; body := error_body s3_message |};
       collection := c;
       trace := List.concat (map snd (uploadPromises w name 0 fs)) |}.
Proof.
  intros Hn Hf HP; unfold upload_handler; cbn [body_productName files].
  rewrite valid_request_check by assumption; simpl.
  now rewrite HP.
Qed.

(** The join resolved and MongoDB answered: status 201 with the record. *)
Lemma upload_handler_stored name fs urls :
  name <> "" -> fs <> [] ->
  batch_locations w name fs = Some urls ->
  mongo_answers w = true ->
  upload_handler w {| body_productName := Some name; files := Some fs |} c =
    {| response :=
         {| status := 201;
            body := JObj [ ("message", JStr success_message);
                           ("product", toJSON (fst (findOneAndUpdate name urls c))) ] |};
       collection := snd (findOneAndUpdate name urls c);
       trace := (List.concat (map snd (uploadPromises w name 0 fs)) ++
                 [MongoFindOneAndUpdate name urls])%list |}.
Proof.
  intros Hn Hf HB HM; unfold upload_handler, batch_locations in *.
  cbn [body_productName files].
  rewrite valid_request_check by assumption; simpl.
  destruct (Promise_all _) as [r|e]; [|discriminate].
  inversion HB; subst; rewrite HM.
  now destruct (findOneAndUpdate _ _ _).
Qed.

(** The join resolved and MongoDB rejected the write: status 500, the
    collection as it was. *)
Lemma upload_handler_db_failed name fs urls :
  name <> "" -> fs <> [] ->
  batch_locations w name fs = Some urls ->
  mongo_answers w = false ->
  upload_handler w {| body_productName := Some name; files := Some fs |} c =
    {| response := {| status := 500; body := error_body db_message |};
       collection := c;
       trace := (List.concat (map snd (uploadPromises w name 0 fs)) ++
                 [MongoFindOneAndUpdate name urls])%list |}.
Proof.
  intros Hn Hf HB HM; unfold upload_handler, batch_locations in *.
  cbn [body_productName files].
  rewrite valid_request_check by assumption; simpl.
  destruct (Promise_all _) as [r|e]; [|discriminate].
  inversion HB; subst; now rewrite HM.
Qed.

(** The collection after a request: untouched, or one upsert later. *)
Lemma upload_handler_collection req :
  collection (upload_handler w req c) = c \/
  exists name urls,
    collection (upload_handler w req c) = snd (findOneAndUpdate name urls c).
Proof.
  unfold upload_handler.
  destruct (falsy _ || no_files _); [now left|].
  destruct (body_productName req) as [name|], (files req) as [fs|];
    try (now left).
  destruct (Promise_all _) as [r|e]; [|now left].
  destruct (mongo_answers w); [|now left].
  right; exists name, (map Location r).
  now destruct (findOneAndUpdate _ _ _).
Qed.

(** The uploads in the trace of a request are those of its batch. *)
Lemma upload_handler_uploads req p r :
  In (S3Upload p r) (trace (upload_handler w req c)) ->
  exists name fs,
    body_productName req = Some name /\ files req = Some fs /\
    In (S3Upload p r) (List.concat (map snd (uploadPromises w name 0 fs))).
Proof.
  unfold upload_handler.
  destruct (falsy _ || no_files _); [contradiction|].
  destruct (body_productName req) as [name|], (files req) as [fs|];
    try contradiction.
  intros H; exists name, fs; repeat split.
  destruct (Promise_all _) as [s3Results|e]; [|exact H].
  assert (In (S3Upload p r)
            (List.concat (map snd (uploadPromises w name 0 fs)) ++
             [MongoFindOneAndUpdate name (map Location s3Results)])%list) as H'.
  { destruct (mongo_answers w); [|exact H].
    now destruct (findOneAndUpdate _ _ _). }
  apply in_app_iff in H' as [H'|[H'|[]]]; [exact H'|discriminate].
Qed.

(** The trace of a request that passes validation starts with the uploads
    of its batch. *)
Lemma upload_handler_trace_valid name fs :
  name <> "" -> fs <> [] ->
  exists rest,
    trace (upload_handler w {| body_productName := Some name; files := Some fs |} c) =
      (List.concat (map snd (uploadPromises w name 0 fs)) ++ rest)%list.
Proof.
  intros Hn Hf; unfold upload_handler; cbn [body_productName files].
  rewrite valid_request_check by assumption.
  destruct (Promise_all _) as [r|e].
  - destruct (mongo_answers w); [destruct (findOneAndUpdate _ _ _)|];
      now exists [MongoFindOneAndUpdate name (map Location r)].
  - exists []; simpl; now rewrite app_nil_r.
Qed.
End UploadRoute.

(** ** The collection *)

Section Store.
Implicit Types (c : Collection) (d : Image) (urls : list string).

Lemma findOne_name name c d : findOne name c = Some d -> productName d = name.
Proof.
  induction c as [|d0 c IH]; simpl; [discriminate|].
  destruct (String.eqb_spec (productName d0) name); auto.
  now intros [= <-].
Qed.

Lemma findOne_none_iff name c :
  findOne name c = None <-> ~ In name (map productName c).
Proof.
  induction c as [|d0 c IH]; simpl; [tauto|].
  destruct (String.eqb_spec (productName d0) name); split.
  - discriminate.
  - intros H; exfalso; apply H; now left.
  - intros H [E|H']; [contradiction|]. now apply IH.
  - intros H; apply IH; tauto.
Qed.

Lemma pushEach_none name urls c :
  findOne name c = None -> pushEach name urls c = None.
Proof.
  induction c as [|d0 c IH]; simpl; auto.
  destruct (String.eqb (productName d0) name); [discriminate|].
  now intros H; rewrite (IH H).
Qed.

Lemma pushEach_some name urls c d :
  findOne name c = Some d ->
  exists c',
    pushEach name urls c =
      Some ({| productName := name; Jewellery := (Jewellery d ++ urls)%list |}, c') /\
    findOne name c' =
      Some {| productName := name; Jewellery := (Jewellery d ++ urls)%list |} /\
    map productName c' = map productName c /\
    (forall other, other <> name -> findOne other c' = findOne other c).
Proof.
  induction c as [|d0 c IH]; simpl; [discriminate|].
  destruct (String.eqb_spec (productName d0) name) as [E|NE].
  - intros [= <-]. rewrite E. eexists; split; [reflexivity|]; simpl.
    rewrite String.eqb_refl; split; [reflexivity|].
    split; [reflexivity|].
    intros other Ho.
    destruct (String.eqb_spec name other); [congruence|].
    destruct (String.eqb_spec (productName d0) other); [congruence|reflexivity].
  - intros H; destruct (IH H) as (c' & -> & Hf & Hn & Ho).
    eexists; split; [reflexivity|]; simpl.
    destruct (String.eqb_spec (productName d0) name); [contradiction|].
    split; [assumption|]. split; [now rewrite Hn|].
    intros other Hne. now rewrite (Ho other Hne).
Qed.

(** On a fresh name the upsert appends a record holding the batch. *)
Lemma findOneAndUpdate_fresh name urls c :
  findOne name c = None ->
  findOneAndUpdate name urls c =
    ({| productName := name; Jewellery := urls |},
     (c ++ [ {| productName := name; Jewellery := urls |} ])%list).
Proof.
  intros H; unfold findOneAndUpdate; now rewrite (pushEach_none _ _ _ H).
Qed.

Lemma findOne_app_fresh name c d :
  findOne name c = None -> productName d = name ->
  findOne name (c ++ [d])%list = Some d.
Proof.
  intros H <-; induction c as [|d0 c IH]; simpl in *.
  - now rewrite String.eqb_refl.
  - destruct (String.eqb (productName d0) (productName d)); [discriminate|auto].
Qed.

Lemma findOne_app_other other c d :
  productName d <> other -> findOne other (c ++ [d])%list = findOne other c.
Proof.
  intros H; induction c as [|d0 c IH]; simpl.
  - now destruct (String.eqb_spec (productName d) other).
  - now rewrite IH.
Qed.

(** What the upsert returns and leaves behind: the record of [name] now
    holds what it held, followed by [urls]; other names are untouched. *)
Lemma findOneAndUpdate_spec name urls c :
  let d := {| productName := name;
              Jewellery := (recorded name c ++ urls)%list |} in
  fst (findOneAndUpdate name urls c) = d /\
  findOne name (snd (findOneAndUpdate name urls c)) = Some d /\
  (forall other, other <> name ->
     findOne other (snd (findOneAndUpdate name urls c)) = findOne other c).
Proof.
  unfold recorded, findOneAndUpdate.
  destruct (findOne name c) as [d0|] eqn:E.
  - destruct (pushEach_some name urls c d0 E) as (c' & -> & Hf & _ & Ho).
    simpl; auto.
  - rewrite (pushEach_none _ urls _ E); simpl; repeat split.
    + now apply findOne_app_fresh.
    + intros other Ho; apply findOne_app_other; simpl; congruence.
Qed.

(** The upsert inserts only when the name is absent, so it keeps the names
    of the collection pairwise distinct. *)
Lemma findOneAndUpdate_NoDup name urls c :
  NoDup (map productName c) ->
  NoDup (map productName (snd (findOneAndUpdate name urls c))).
Proof.
  intros ND; unfold findOneAndUpdate.
  destruct (findOne name c) as [d0|] eqn:E.
  - destruct (pushEach_some name urls c d0 E) as (c' & -> & _ & Hn & _).
    simpl; now rewrite Hn.
  - rewrite (pushEach_none _ urls _ E); simpl.
    rewrite map_app; simpl.
    apply NoDup_app; repeat split; auto.
    + repeat constructor; simpl; tauto.
    + intros x Hx [<-|[]]. now apply findOne_none_iff in E.
Qed.
End Store.

(** ** A batch, file by file *)

Section Batch.
Variables (w : World) (name : string).

Lemma uploadPromises_nth i fs k file :
  nth_error fs k = Some file ->
  nth_error (uploadPromises w name i fs) k =
    Some (uploadPromise w name (i + k) file).
Proof.
  revert i k; induction fs as [|f fs IH]; intros i [|k]; simpl; try discriminate.
  - intros [= ->]; now rewrite Nat.add_0_r.
  - intros H; rewrite (IH (S i) k H); now rewrite Nat.add_succ_r.
Qed.

Lemma batch_locations_length fs urls :
  batch_locations w name fs = Some urls -> List.length urls = List.length fs.
Proof.
  unfold batch_locations.
  destruct (Promise_all _) as [r|e] eqn:E; [|discriminate].
  intros [= <-]. apply Promise_all_length in E.
  now rewrite length_map, E, length_map, uploadPromises_length.
Qed.

(** Submission order: the location of index [k] is the one the store
    returned for the file of index [k]. *)
Lemma batch_locations_nth fs urls k file :
  batch_locations w name fs = Some urls ->
  nth_error fs k = Some file ->
  exists b data,
    addWatermarkAndSave w (buffer file) name = Resolved b /\
    s3_upload w (params w k file b) = Some data /\
    nth_error urls k = Some (Location data).
Proof.
  unfold batch_locations.
  destruct (Promise_all _) as [r|e] eqn:E; [|discriminate].
  intros [= <-] Hk. apply Promise_all_resolved in E.
  pose proof (uploadPromises_nth 0 fs k file Hk) as Hp; simpl in Hp.
  apply (map_nth_error fst) in Hp. rewrite E in Hp.
  rewrite nth_error_map in Hp.
  destruct (nth_error r k) as [data|] eqn:Er; [|discriminate].
  simpl in Hp; injection Hp as Hp.
  destruct (uploadPromise_cases w name k file)
    as [(e & _ & E')|[(b & d & Hr & Hs & E')|(b & e & _ & _ & E')]];
    rewrite E' in Hp; simpl in Hp; try discriminate.
  injection Hp as <-. exists b, data; repeat split; auto.
  now rewrite nth_error_map, Er.
Qed.

(** A file that fails, in the renderer or at the store, makes the join
    reject. *)
Lemma failing_file_rejects_join fs k file :
  nth_error fs k = Some file ->
  render_fails w name file \/ store_rejects w name k file ->
  exists e, Promise_all (map fst (uploadPromises w name 0 fs)) = Rejected e.
Proof.
  intros Hk Hfail.
  pose proof (uploadPromises_nth 0 fs k file Hk) as Hp; simpl in Hp.
  apply (map_nth_error fst) in Hp. apply nth_error_In in Hp.
  assert (exists e, fst (uploadPromise w name k file) = Rejected e) as [e He].
  { unfold uploadPromise.
    destruct Hfail as [[e ->]|(b & -> & ->)]; simpl; eauto. }
  rewrite He in Hp. now apply Promise_all_rejects in Hp.
Qed.

(** A file that was rendered is sent to the object store, with the
    parameters of its index. *)
Lemma rendered_file_is_uploaded fs k file b :
  nth_error fs k = Some file ->
  addWatermarkAndSave w (buffer file) name = Resolved b ->
  In (S3Upload (params w k file b) (s3_upload w (params w k file b)))
     (List.concat (map snd (uploadPromises w name 0 fs))).
Proof.
  intros Hk Hr.
  pose proof (uploadPromises_nth 0 fs k file Hk) as Hp; simpl in Hp.
  apply in_concat.
  exists [S3Upload (params w k file b) (s3_upload w (params w k file b))].
  split; [|now left].
  apply in_map_iff. exists (uploadPromise w name k file); split.
  - unfold uploadPromise; rewrite Hr.
    now destruct (s3_upload w (params w k file b)).
  - eapply nth_error_In; eassumption.
Qed.
End Batch.

(** ** The renderer *)

(** The renderer's output always comes out of a pipeline that ends in
    [.jpeg({ quality: 90 })]. *)
Lemma addWatermarkAndSave_jpeg (w : World) (imageBuffer b : Buffer)
    (label : string) :
  addWatermarkAndSave w imageBuffer label = Resolved b ->
  encoded_as w (Jpeg 90) b.
Proof.
  unfold addWatermarkAndSave, encoded_as.
  destruct (sharp_metadata w imageBuffer) as [m|]; simpl; [|discriminate].
  destruct (fs_readFileSync w _) as [svgBuffer|]; simpl; [|discriminate].
  destruct (sharp_toBuffer w (overlay_pipeline _ _)) as [overlay|]; simpl;
    [|discriminate].
  destruct (sharp_toBuffer w (watermark_pipeline _ _)) as [out|] eqn:E; simpl;
    [|discriminate].
  intros [= <-]. now exists (watermark_pipeline imageBuffer overlay).
Qed.

(** *** Substitution into the overlay *)

Section Substitution.
Implicit Types (s t u pat pre post a b : string).


Lemma append_assoc s t u : (s ++ t) ++ u = s ++ t ++ u.
Proof. induction s as [|c s IH]; simpl; [reflexivity|now rewrite IH]. Qed.

Lemma strip_prefix_spec pat s rest :
  strip_prefix pat s = Some rest -> s = pat ++ rest.
Proof.
  revert s; induction pat as [|a pat IH]; intros [|b s]; simpl;
    try discriminate; try (now intros [= ->]).
  destruct (Ascii.eqb_spec a b) as [->|]; [|discriminate].
  intros H; now rewrite (IH _ H).
Qed.

Lemma split_at_first_spec pat s pre post :
  split_at_first pat s = Some (pre, post) -> s = pre ++ pat ++ post.
Proof.
  revert pre; induction s as [|c s IH]; intros pre; simpl.
  - destruct (strip_prefix pat "") as [rest|] eqn:E; [|discriminate].
    intros [= <- <-]. exact (strip_prefix_spec _ _ _ E).
  - destruct (strip_prefix pat (String c s)) as [rest|] eqn:E.
    + intros [= <- <-]. exact (strip_prefix_spec _ _ _ E).
    + destruct (split_at_first pat s) as [[pre' post']|]; [|discriminate].
      intros [= <- <-]. simpl; f_equal. now apply IH.
Qed.

Lemma no_dollar_app s t : no_dollar (s ++ t) = no_dollar s && no_dollar t.
Proof.
  induction s as [|c s IH]; simpl; [reflexivity|].
  now rewrite IH, andb_assoc.
Qed.

(** A replacement text is copied up to its first dollar sign. *)
Lemma GetSubstitution_plain_prefix matched pre post s t :
  no_dollar s = true ->
  GetSubstitution matched pre post (s ++ t) =
    s ++ GetSubstitution matched pre post t.
Proof.
  induction s as [|c s IH]; simpl; [reflexivity|].
  intros H; apply andb_true_iff in H as [Hc Hs].
  apply negb_true_iff in Hc; rewrite Hc.
  now rewrite (IH Hs).
Qed.


Lemma no_dollar_uint d : no_dollar (NilEmpty.string_of_uint d) = true.
Proof. induction d; simpl; auto. Qed.

Lemma no_dollar_Number_toString n : no_dollar (Number_toString n) = true.
Proof.
  unfold Number_toString, NilZero.string_of_int, NilZero.string_of_uint.
  destruct (Z.to_int n) as [d|d]; destruct d; simpl;
    auto using no_dollar_uint.
Qed.

Lemma no_dollar_Number_toString_Q q : no_dollar (Number_toString_Q q) = true.
Proof.
  unfold Number_toString_Q.
  destruct (Qden (Qred q)); rewrite ?no_dollar_app, ?no_dollar_Number_toString;
    destruct (Qnum (Qred q) <? 0); reflexivity.
Qed.

Lemma no_dollar_attr name value :
  no_dollar name = true -> no_dollar value = true ->
  no_dollar (attr name value) = true.
Proof.
  intros Hn Hv; unfold attr.
  now rewrite !no_dollar_app, Hn, Hv.
Qed.

(** Nothing in the opening tag is open to substitution. *)
Lemma no_dollar_text_open x y : no_dollar (text_open x y) = true.
Proof.
  unfold text_open.
  rewrite !no_dollar_app, !no_dollar_attr;
    auto using no_dollar_Number_toString, no_dollar_Number_toString_Q.
Qed.



Lemma strip_prefix_complete pat r : strip_prefix pat (pat ++ r) = Some r.
Proof.
  induction pat as [|c pat IH]; simpl; [now destruct r|].
  now rewrite Ascii.eqb_refl.
Qed.

Lemma split_at_first_cons pat c s :
  split_at_first pat (String c s) =
    match strip_prefix pat (String c s) with
    | Some post => Some ("", post)
    | None =>
        match split_at_first pat s with
        | Some (pre, post) => Some (String c pre, post)
        | None => None
        end
    end.
Proof. reflexivity. Qed.

(** The search finds an occurrence whenever there is one, and none starts
    before the one it finds. *)
Lemma split_at_first_complete pat a b :
  exists pre post,
    split_at_first pat (a ++ pat ++ b) = Some (pre, post) /\
    (String.length pre <= String.length a)%nat.
Proof.
  induction a as [|c a IH].
  - exists "", b; split; [|simpl; lia].
    cbn [append].
    destruct (pat ++ b) as [|c s] eqn:E.
    + simpl. rewrite <- E, strip_prefix_complete. reflexivity.
    + rewrite split_at_first_cons, <- E, strip_prefix_complete. reflexivity.
  - destruct IH as (pre & post & Hs & Hl).
    cbn [append]. rewrite split_at_first_cons.
    destruct (strip_prefix pat (String c (a ++ pat ++ b))) as [post'|].
    + exists "", post'; split; [reflexivity|simpl; lia].
    + rewrite Hs. exists (String c pre), post; split; [reflexivity|simpl; lia].
Qed.

Lemma split_at_first_none pat s :
  (forall a b, s <> a ++ pat ++ b) -> split_at_first pat s = None.
Proof.
  intros H. destruct (split_at_first pat s) as [[pre post]|] eqn:E; [|reflexivity].
  elim (H pre post). now apply split_at_first_spec.
Qed.


End Substitution.

Lemma Number_toString_Q_proper (p q : Q) :
  p == q -> Number_toString_Q p = Number_toString_Q q.
Proof.
  intros E; unfold Number_toString_Q; now rewrite (Qred_complete _ _ E).
Qed.

(** A 641 pixel wide image puts the text at x = 320.5. *)
Example Number_toString_Q_641 :
  Number_toString_Q (positionLeft {| width := 641; height := 480 |}) = "320.5".
Proof. reflexivity. Qed.

(** ** Stored documents *)

Section Stored.
Implicit Types (c : Collection) (d : Image) (doc : json) (stored : list json).

Lemma all_strings items :
  forallb (has_type SString) items = true -> exists l, items = map JStr l.
Proof.
  induction items as [|v items IH]; simpl; intros H.
  - now exists [].
  - apply andb_true_iff in H as [Hv Hi].
    destruct v; try discriminate.
    destruct (IH Hi) as [l ->]. now exists (s :: l).
Qed.

Lemma strings_have_type l : forallb (has_type SString) (map JStr l) = true.
Proof. induction l; simpl; auto. Qed.

(** The documents that follow [imageSchema] are those of the model. *)
Lemma conforms_imageSchema doc :
  conforms imageSchema doc = true <-> exists d, doc = toJSON d.
Proof.
  split.
  - destruct doc as [| | |items|members]; try discriminate.
    unfold conforms, imageSchema, conforms_members; cbn [type required negb andb].
    destruct members as [|[k v] members]; [discriminate|].
    destruct (String.eqb_spec k "productName") as [->|]; [|discriminate].
    intros H; apply andb_true_iff in H as [Hv H].
    destruct v as [| |n| |]; try discriminate.
    destruct members as [|[k' v'] members]; [discriminate|].
    destruct (String.eqb_spec k' "Jewellery") as [->|]; [|discriminate].
    apply andb_true_iff in H as [Hv' H].
    destruct v' as [| | |items|]; try discriminate.
    destruct members; [|discriminate].
    destruct (all_strings items Hv') as [l ->].
    now exists {| productName := n; Jewellery := l |}.
  - intros [d ->]; simpl. now rewrite strings_have_type.
Qed.

Lemma stored_of_model stored :
  (forall doc, In doc stored -> exists d, doc = toJSON d) ->
  exists c, stored = map toJSON c.
Proof.
  induction stored as [|doc stored IH]; intros H.
  - now exists [].
  - destruct (H doc (or_introl eq_refl)) as [d ->].
    destruct IH as [c ->]; [intros x Hx; apply H; now right|].
    now exists (d :: c).
Qed.

Lemma matches_toJSON name d :
  matches name (toJSON d) = String.eqb (productName d) name.
Proof. reflexivity. Qed.

Lemma push_Jewellery_toJSON urls d :
  push_Jewellery urls (toJSON d) =
    Some (toJSON {| productName := productName d;
                    Jewellery := (Jewellery d ++ urls)%list |}).
Proof.
  unfold toJSON at 2; cbn [Jewellery productName]. rewrite map_app.
  reflexivity.
Qed.

Lemma update_first_toJSON name urls c :
  update_first name urls (map toJSON c) =
    match pushEach name urls c with
    | Some (d', c') => Updated (toJSON d') (map toJSON c')
    | None => NoMatch
    end.
Proof.
  induction c as [|d c IH]; [reflexivity|].
  cbn [map update_first pushEach].
  rewrite matches_toJSON.
  destruct (String.eqb (productName d) name).
  - now rewrite push_Jewellery_toJSON.
  - rewrite IH. now destruct (pushEach name urls c) as [[d' c']|].
Qed.

(** On documents of the model, the write on stored documents is the write
    of the model. *)
Lemma stored_findOneAndUpdate_toJSON name urls c :
  stored_findOneAndUpdate name urls (map toJSON c) =
    Some (toJSON (fst (findOneAndUpdate name urls c)),
          map toJSON (snd (findOneAndUpdate name urls c))).
Proof.
  unfold stored_findOneAndUpdate, findOneAndUpdate.
  rewrite update_first_toJSON.
  destruct (pushEach name urls c) as [[d' c']|]; [reflexivity|].
  cbn [fst snd]. now rewrite map_app.
Qed.

(** And the route on stored documents is the route of the model. *)
Lemma upload_on_stored_toJSON w req c :
  upload_on_stored w req (map toJSON c) =
    {| stored_status := status (response (upload_handler w req c));
       stored_after := map toJSON (collection (upload_handler w req c));
       stored_trace := trace (upload_handler w req c) |}.
Proof.
  unfold upload_on_stored, upload_handler, bad_request.
  destruct (falsy _ || no_files _); [reflexivity|].
  destruct (body_productName req) as [name|], (files req) as [fs|];
    try reflexivity.
  destruct (Promise_all _) as [r|e]; [|reflexivity].
  destruct (mongo_answers w); [|reflexivity].
  rewrite stored_findOneAndUpdate_toJSON.
  now destruct (findOneAndUpdate name (map Location r) c).
Qed.

Lemma stored_names_toJSON c :
  stored_names (map toJSON c) = map (fun n => Some (JStr n)) (map productName c).
Proof. unfold stored_names; rewrite !map_map; reflexivity. Qed.

Lemma NoDup_stored_names c :
  NoDup (stored_names (map toJSON c)) <-> NoDup (map productName c).
Proof.
  rewrite stored_names_toJSON; split.
  - apply NoDup_map_inv.
  - induction 1 as [|n l Hn ND IH]; simpl; constructor; [|exact IH].
    intros Hin; apply in_map_iff in Hin as (n' & [= ->] & Hin'). now apply Hn.
Qed.

(** An upload request keeps the stored documents in the model. *)
Lemma upload_on_stored_keeps_model w req stored :
  (forall doc, In doc stored -> exists d, doc = toJSON d) ->
  forall doc, In doc (stored_after (upload_on_stored w req stored)) ->
  exists d, doc = toJSON d.
Proof.
  intros H doc Hin.
  destruct (stored_of_model stored H) as [c ->].
  rewrite upload_on_stored_toJSON in Hin; cbn [stored_after] in Hin.
  apply in_map_iff in Hin as (d & <- & _). now exists d.
Qed.

Lemma serve_keeps_model requests stored :
  (forall doc, In doc stored -> exists d, doc = toJSON d) ->
  forall doc, In doc (serve requests stored) -> exists d, doc = toJSON d.
Proof.
  revert stored; induction requests as [|[w req] rest IH]; intros stored H;
    [exact H|].
  cbn [serve]. apply IH. now apply upload_on_stored_keeps_model.
Qed.
End Stored.

(* ================================================================== *)
(** * The claims *)

(** C1, as amended.  For every valid upload request with N files
    (1 <= N <= 10) and a product name that has no record, when every file
    is rendered and stored and MongoDB answers, the response has status 201
    and body [{ message, product }], where [product] is the record inserted
    for that name, and [product.Jewellery] (not [product.images]) has
    exactly N entries: the N locations of the batch. *)
Theorem C1_fresh_upload_returns_N_locations
    (w : World) (c : Collection) (name : string) (fs : list File)
    (urls : list string) (N : nat) :
  name <> "" ->
  List.length fs = N -> (1 <= N <= 10)%nat ->
  findOne name c = None ->
  batch_locations w name fs = Some urls ->
  mongo_answers w = true ->
  let out := upload_handler w {| body_productName := Some name; files := Some fs |} c in
  let product := {| productName := name; Jewellery := urls |} in
  response out =
    {| status := 201;
       body := JObj [ ("message", JStr success_message);
                      ("product", toJSON product) ] |} /\
  path ["product"; "Jewellery"] (body (response out)) = Some (JArr (map JStr urls)) /\
  List.length urls = N /\
  findOne name (collection out) = Some product.
Proof.
  intros Hn HN [H1 _] Hfresh Hb Hm out product.
  assert (fs <> []) as Hf by (intros ->; simpl in HN; lia).
  subst out.
  rewrite (upload_handler_stored w c name fs urls Hn Hf Hb Hm).
  rewrite (findOneAndUpdate_fresh name urls c Hfresh); simpl.
  repeat split.
  - rewrite <- HN. now apply batch_locations_length with (w := w) (name := name).
  - now apply findOne_app_fresh.
Qed.

(** C1 at a two-file request on an empty collection. *)
Lemma C1_witness :
  let out := upload_handler Demo.calm
               (Demo.request "Gold Ring" [Demo.ring; Demo.necklace]) [] in
  status (response out) = 201 /\
  exists urls,
    path ["product"; "Jewellery"] (body (response out)) = Some (JArr (map JStr urls)) /\
    List.length urls = 2%nat.
Proof.
  destruct (C1_fresh_upload_returns_N_locations Demo.calm [] "Gold Ring"
              [Demo.ring; Demo.necklace]
              [ "https://jewels.s3.amazonaws.com/products/1700000000000-ring.jpg";
                "https://jewels.s3.amazonaws.com/products/1700000000001-necklace.png" ]
              2)
    as (Hr & Hp & Hl & _);
    [ discriminate | reflexivity | lia | reflexivity | reflexivity | reflexivity | ].
  intros out; subst out; unfold Demo.request; split.
  - now rewrite Hr.
  - eexists; split; [exact Hp | exact Hl].
Defined.

(** C1 as stated fails: on a successful one-file upload for a new name the
    response is 201, but its [product] has no member [images], let alone one
    with one entry. *)
Lemma C1_counterexample :
  let out := upload_handler Demo.calm (Demo.request "Gold Ring" [Demo.ring]) [] in
  status (response out) = 201 /\
  path ["product"; "images"] (body (response out)) = None /\
  ~ (exists items,
       path ["product"; "images"] (body (response out)) = Some (JArr items) /\
       List.length items = 1%nat).
Proof.
  simpl; repeat split; try reflexivity.
  intros (items & H & _); vm_compute in H; discriminate.
Qed.

(** C2.  For every upload request in which the object store rejects at
    least one of the uploads, the service answers with status 500, the
    collection is left as it was and no document-store write is issued:
    the trace holds the uploads of the batch, the rejected one among them,
    and nothing else. *)
Theorem C2_rejected_upload_aborts_batch
    (w : World) (c : Collection) (req : Request) (name : string)
    (fs : list File) (k : nat) (file : File) :
  body_productName req = Some name -> name <> "" ->
  files req = Some fs ->
  nth_error fs k = Some file ->
  store_rejects w name k file ->
  let out := upload_handler w req c in
  response out = {| status := 500; body := error_body s3_message |} /\
  collection out = c /\
  (forall ev, In ev (trace out) -> is_MongoWrite ev = false) /\
  (exists p, In (S3Upload p None) (trace out)).
Proof.
  intros Hname Hn Hfs Hk Hrej out.
  assert (fs <> []) as Hf by (intros ->; destruct k; discriminate).
  destruct (failing_file_rejects_join w name fs k file Hk (or_intror Hrej))
    as [e He].
  assert (out = upload_handler w {| body_productName := Some name; files := Some fs |} c)
    as -> by (subst out; destruct req; simpl in *; now subst).
  rewrite (upload_handler_join_rejected w c name fs e Hn Hf He); simpl.
  repeat split.
  - intros ev Hev.
    destruct (uploads_origin w name 0 fs ev Hev) as (k' & f' & b & _ & _ & ->).
    reflexivity.
  - destruct Hrej as (b & Hr & Hs).
    exists (params w k file b). rewrite <- Hs.
    now apply rendered_file_is_uploaded.
Qed.

(** C2 where the store rejects the second of two files. *)
Lemma C2_witness :
  store_rejects Demo.picky "Gold Ring" 1 Demo.necklace /\
  let out := upload_handler Demo.picky
               (Demo.request "Gold Ring" [Demo.ring; Demo.necklace]) [] in
  response out = {| status := 500; body := error_body s3_message |} /\
  collection out = [] /\
  (forall ev, In ev (trace out) -> is_MongoWrite ev = false) /\
  (exists p, In (S3Upload p None) (trace out)).
Proof.
  assert (store_rejects Demo.picky "Gold Ring" 1 Demo.necklace) as H.
  { eexists; split; reflexivity. }
  split; [exact H|].
  apply (C2_rejected_upload_aborts_batch Demo.picky []
           (Demo.request "Gold Ring" [Demo.ring; Demo.necklace]) "Gold Ring"
           [Demo.ring; Demo.necklace] 1 Demo.necklace);
    [ reflexivity | discriminate | reflexivity | reflexivity | exact H ].
Defined.

(** C3.  For every upload request with no files ([req.files] undefined or
    empty) or with a missing or empty product name, the service answers
    with status 400 and a body [{ error }], and calls neither the object
    store nor the document store. *)
Theorem C3_missing_input_is_rejected
    (w : World) (c : Collection) (req : Request) :
  files req = None \/ files req = Some [] \/
  body_productName req = None \/ body_productName req = Some "" ->
  let out := upload_handler w req c in
  response out = {| status := 400; body := error_body validation_message |} /\
  path ["error"] (body (response out)) = Some (JStr validation_message) /\
  trace out = [] /\
  collection out = c.
Proof.
  intros H out; subst out.
  rewrite upload_handler_invalid; [now repeat split|].
  destruct req as [n fs]; simpl in *.
  destruct H as [ -> | [ -> | [ -> | -> ] ] ]; simpl; auto using orb_true_r.
Qed.

(** C3 at a request that names a product and carries no file. *)
Lemma C3_witness :
  files (Demo.request "Gold Ring" []) = Some [] /\
  let out := upload_handler Demo.calm (Demo.request "Gold Ring" []) [Build_Image "Gold Ring" []] in
  status (response out) = 400 /\ trace out = [].
Proof.
  split; [reflexivity|].
  destruct (C3_missing_input_is_rejected Demo.calm [Build_Image "Gold Ring" []]
              (Demo.request "Gold Ring" []))
    as (Hr & _ & Ht & _); [right; left; reflexivity|].
  split; [now rewrite Hr | exact Ht].
Defined.

(** C4, as amended.  Every record that upload requests with a string (or
    no) product name persist has the shape
    [{ productName: string, Jewellery: ordered list of string }]: the schema
    has exactly these two paths, both required, the image locations are
    stored under [Jewellery] and no member is named [images].  This holds
    of the documents MongoDB stores: a request keeps it, so it holds of
    every collection built from the empty one.  The schema declares no
    unique index; product names stay pairwise distinct across a request
    because the upsert inserts a record only when no record carries the
    name. *)
Theorem C4_record_shape (w : World) (req : Request) (stored : list json) :
  let record doc :=
    exists name urls,
      doc = JObj [ ("productName", JStr name);
                   ("Jewellery", JArr (map JStr urls)) ] in
  let after := stored_after (upload_on_stored w req stored) in
  map fst imageSchema = ["productName"; "Jewellery"] /\
  (forall p, In p (map snd imageSchema) -> required p = true /\ unique p = false) /\
  (forall doc, conforms imageSchema doc = true <-> record doc) /\
  ((forall doc, In doc stored -> record doc) ->
   (forall doc, In doc after -> record doc /\ member "images" doc = None) /\
   (NoDup (stored_names stored) -> NoDup (stored_names after))) /\
  (forall requests doc,
     In doc (serve requests []) -> record doc /\ member "images" doc = None).
Proof.
  intros record after.
  assert (forall doc, record doc <-> exists d, doc = toJSON d) as Hrec.
  { intros doc; split.
    - intros (name & urls & ->).
      now exists {| productName := name; Jewellery := urls |}.
    - intros [d ->]. now exists (productName d), (Jewellery d). }
  assert (forall doc, (exists d, doc = toJSON d) ->
                      record doc /\ member "images" doc = None) as Hshape.
  { intros doc Hd; split; [now apply Hrec|]. now destruct Hd as [d ->]. }
  split; [reflexivity|].
  split; [intros p [<-|[<-|[]]]; now split|].
  split; [intros doc; rewrite Hrec; apply conforms_imageSchema|].
  split.
  - intros Hall.
    assert (forall doc, In doc stored -> exists d, doc = toJSON d) as Hmodel
      by (intros doc Hin; now apply Hrec, Hall).
    split.
    + intros doc Hin. apply Hshape.
      now apply (upload_on_stored_keeps_model w req stored Hmodel).
    + subst after. destruct (stored_of_model stored Hmodel) as [c ->].
      rewrite upload_on_stored_toJSON; cbn [stored_after].
      rewrite !NoDup_stored_names. intros ND.
      destruct (upload_handler_collection w c req) as [->|(name & urls & ->)];
        [assumption|now apply findOneAndUpdate_NoDup].
  - intros requests doc Hin. apply Hshape.
    apply (serve_keeps_model requests [] (fun _ H => match H with end) doc Hin).
Qed.

(** C4 at an upload for a new name next to a stored record. *)
Lemma C4_witness :
  let pearl := JObj [ ("productName", JStr "Pearl"); ("Jewellery", JArr []) ] in
  let after := stored_after (upload_on_stored Demo.calm
                               (Demo.request "Gold Ring" [Demo.ring]) [pearl]) in
  (forall doc, In doc [pearl] ->
     exists name urls,
       doc = JObj [ ("productName", JStr name);
                    ("Jewellery", JArr (map JStr urls)) ]) /\
  (forall doc, In doc after ->
     (exists name urls,
        doc = JObj [ ("productName", JStr name);
                     ("Jewellery", JArr (map JStr urls)) ]) /\
     member "images" doc = None) /\
  List.length after = 2%nat.
Proof.
  intros pearl after.
  assert (forall doc, In doc [pearl] ->
            exists name urls,
              doc = JObj [ ("productName", JStr name);
                           ("Jewellery", JArr (map JStr urls)) ]) as H.
  { intros doc [<-|[]]. now exists "Pearl", []. }
  split; [exact H|]. split; [|reflexivity].
  destruct (C4_record_shape Demo.calm (Demo.request "Gold Ring" [Demo.ring]) [pearl])
    as (_ & _ & _ & Hkeep & _).
  exact (proj1 (Hkeep H)).
Defined.

(** C4 as stated fails: the schema has no path [images] and puts no unique
    index on [productName], and the document an upload stores has its image
    location under [Jewellery] and no member [images]. *)
Lemma C4_counterexample :
  let after := stored_after (upload_on_stored Demo.calm
                               (Demo.request "Gold Ring" [Demo.ring]) []) in
  schema_path "images" imageSchema = None /\
  option_map unique (schema_path "productName" imageSchema) = Some false /\
  after =
    [ JObj [ ("productName", JStr "Gold Ring");
             ("Jewellery",
               JArr [ JStr "https://jewels.s3.amazonaws.com/products/1700000000000-ring.jpg" ]) ] ] /\
  ~ (forall doc, In doc after ->
       exists items, member "images" doc = Some (JArr items)).
Proof.
  repeat split.
  intros H.
  destruct (H (JObj [ ("productName", JStr "Gold Ring");
                      ("Jewellery",
                        JArr [ JStr "https://jewels.s3.amazonaws.com/products/1700000000000-ring.jpg" ]) ]))
    as (items & Hi); [now left|discriminate].
Qed.

(** C5, as amended.  For two consecutive successful upload requests for the
    same product name, the record's [Jewellery] sequence ends up as what it
    held before the first request (nothing, for a new name), followed by the
    first batch's locations and then the second's, each batch in the order
    of its files; the response carries that record, and every location the
    uploader returned is in it. *)
Theorem C5_batches_accumulate
    (w1 w2 : World) (c : Collection) (name : string)
    (fs1 fs2 : list File) (urls1 urls2 : list string) :
  name <> "" -> fs1 <> [] -> fs2 <> [] ->
  batch_locations w1 name fs1 = Some urls1 -> mongo_answers w1 = true ->
  batch_locations w2 name fs2 = Some urls2 -> mongo_answers w2 = true ->
  let first := upload_handler w1 {| body_productName := Some name; files := Some fs1 |} c in
  let second := upload_handler w2 {| body_productName := Some name; files := Some fs2 |}
                  (collection first) in
  let d := {| productName := name;
              Jewellery := (recorded name c ++ urls1 ++ urls2)%list |} in
  findOne name (collection second) = Some d /\
  path ["product"] (body (response second)) = Some (toJSON d) /\
  (findOne name c = None -> Jewellery d = (urls1 ++ urls2)%list) /\
  (forall url, In url urls1 \/ In url urls2 -> In url (Jewellery d)) /\
  (forall k file, nth_error fs1 k = Some file ->
     exists b data, s3_upload w1 (params w1 k file b) = Some data /\
                    nth_error urls1 k = Some (Location data)) /\
  (forall k file, nth_error fs2 k = Some file ->
     exists b data, s3_upload w2 (params w2 k file b) = Some data /\
                    nth_error urls2 k = Some (Location data)).
Proof.
  intros Hn Hf1 Hf2 Hb1 Hm1 Hb2 Hm2 first second d.
  subst first second.
  rewrite (upload_handler_stored w1 c name fs1 urls1 Hn Hf1 Hb1 Hm1).
  cbn [collection].
  rewrite (upload_handler_stored w2 _ name fs2 urls2 Hn Hf2 Hb2 Hm2).
  cbn [collection response body].
  destruct (findOneAndUpdate_spec name urls1 c) as (_ & Hfind1 & _).
  destruct (findOneAndUpdate_spec name urls2 (snd (findOneAndUpdate name urls1 c)))
    as (Hd & Hfind2 & _).
  assert (recorded name (snd (findOneAndUpdate name urls1 c)) =
          (recorded name c ++ urls1)%list) as Hrec
    by (unfold recorded at 1; now rewrite Hfind1).
  rewrite Hrec, <- app_assoc in Hd, Hfind2.
  repeat split.
  - exact Hfind2.
  - simpl; now rewrite Hd.
  - intros Hfresh; subst d; simpl. unfold recorded; now rewrite Hfresh.
  - intros url Hu; subst d; simpl. rewrite !in_app_iff; tauto.
  - intros k file Hk.
    destruct (batch_locations_nth w1 name fs1 urls1 k file Hb1 Hk)
      as (b & data & _ & Hs & Hu); now exists b, data.
  - intros k file Hk.
    destruct (batch_locations_nth w2 name fs2 urls2 k file Hb2 Hk)
      as (b & data & _ & Hs & Hu); now exists b, data.
Qed.

(** C5 at two uploads for a new name, two files and then one. *)
Lemma C5_witness :
  let first := upload_handler Demo.calm
                 (Demo.request "Gold Ring" [Demo.ring; Demo.necklace]) [] in
  let second := upload_handler Demo.calm (Demo.request "Gold Ring" [Demo.ring])
                  (collection first) in
  option_map Jewellery (findOne "Gold Ring" (collection second)) =
    Some [ "https://jewels.s3.amazonaws.com/products/1700000000000-ring.jpg";
           "https://jewels.s3.amazonaws.com/products/1700000000001-necklace.png";
           "https://jewels.s3.amazonaws.com/products/1700000000000-ring.jpg" ].
Proof.
  intros first second; subst first second; unfold Demo.request.
  destruct (C5_batches_accumulate Demo.calm Demo.calm [] "Gold Ring"
              [Demo.ring; Demo.necklace] [Demo.ring]
              [ "https://jewels.s3.amazonaws.com/products/1700000000000-ring.jpg";
                "https://jewels.s3.amazonaws.com/products/1700000000001-necklace.png" ]
              [ "https://jewels.s3.amazonaws.com/products/1700000000000-ring.jpg" ])
    as (H & _);
    [ discriminate | discriminate | discriminate
    | reflexivity | reflexivity | reflexivity | reflexivity | ].
  now rewrite H.
Defined.

(** C5 as stated fails: after two successful uploads for one name the
    record has no [images] sequence; the two batches are under
    [Jewellery]. *)
Lemma C5_counterexample :
  let first := upload_handler Demo.calm (Demo.request "Gold Ring" [Demo.ring]) [] in
  let second := upload_handler Demo.calm (Demo.request "Gold Ring" [Demo.necklace])
                  (collection first) in
  let ring := "https://jewels.s3.amazonaws.com/products/1700000000000-ring.jpg" in
  let necklace := "https://jewels.s3.amazonaws.com/products/1700000000000-necklace.png" in
  status (response first) = 201 /\ status (response second) = 201 /\
  exists d,
    findOne "Gold Ring" (collection second) = Some d /\
    member "Jewellery" (toJSON d) = Some (JArr [JStr ring; JStr necklace]) /\
    member "images" (toJSON d) <> Some (JArr [JStr ring; JStr necklace]).
Proof.
  repeat split; eexists; repeat split; discriminate.
Qed.




(** C8.  For every GET /api/images/:productName request that MongoDB
    answers: if a record with that name exists the response is 200 with
    the record as JSON, holding exactly the locations accumulated for the
    name (after a successful upload: what was recorded before, followed by
    the batch); if no record matches, the response is 404 with a body
    [{ error }]. *)
Theorem C8_fetch_by_name (w : World) (c : Collection) (name : string) :
  mongo_answers w = true ->
  (forall d, findOne name c = Some d ->
     fetch_handler w name c = {| status := 200; body := toJSON d |} /\
     path ["Jewellery"] (body (fetch_handler w name c)) =
       Some (JArr (map JStr (recorded name c)))) /\
  (findOne name c = None ->
     fetch_handler w name c =
       {| status := 404; body := error_body "Product not found" |} /\
     path ["error"] (body (fetch_handler w name c)) =
       Some (JStr "Product not found")) /\
  (forall w' fs urls,
     name <> "" -> fs <> [] ->
     batch_locations w' name fs = Some urls -> mongo_answers w' = true ->
     let c' := collection (upload_handler w'
                 {| body_productName := Some name; files := Some fs |} c) in
     fetch_handler w name c' =
       {| status := 200;
          body := toJSON {| productName := name;
                            Jewellery := (recorded name c ++ urls)%list |} |}).
Proof.
  intros Hm; unfold fetch_handler, recorded; rewrite Hm.
  split; [|split].
  - intros d Hd; rewrite Hd; split; reflexivity.
  - intros Hnone; rewrite Hnone; split; reflexivity.
  - intros w' fs urls Hn Hf Hb Hm'.
    rewrite (upload_handler_stored w' c name fs urls Hn Hf Hb Hm').
    cbn [collection].
    destruct (findOneAndUpdate_spec name urls c) as (_ & -> & _).
    reflexivity.
Qed.

(** C8 at a collection with one record, for its name. *)
Lemma C8_witness :
  let c := [Build_Image "Gold Ring" ["https://jewels.s3.amazonaws.com/products/1-a.jpg"]] in
  mongo_answers Demo.calm = true /\
  fetch_handler Demo.calm "Gold Ring" c =
    {| status := 200;
       body := JObj [ ("productName", JStr "Gold Ring");
                      ("Jewellery",
                        JArr [JStr "https://jewels.s3.amazonaws.com/products/1-a.jpg"]) ] |} /\
  status (fetch_handler Demo.calm "Pearl" c) = 404.
Proof.
  intros c; split; [reflexivity|].
  destruct (C8_fetch_by_name Demo.calm c "Gold Ring" eq_refl) as (Hfound & _ & _).
  destruct (C8_fetch_by_name Demo.calm c "Pearl" eq_refl) as (_ & Hnone & _).
  split.
  - destruct (Hfound _ eq_refl) as [-> _]; reflexivity.
  - destruct (Hnone eq_refl) as [-> _]; reflexivity.
Defined.

(** C9, as amended.  A file that fails in the renderer and a file that the
    object store rejects are reported alike: status 500 with the body
    [{ error: 'S3 upload failed. Check server logs for details.' }].  The
    bodies the upload route tells apart are those of a rejected request
    (400), of a failed batch (500) and of a failed database write (500). *)
Theorem C9_failure_bodies
    (w : World) (c : Collection) (name : string) (fs : list File) :
  name <> "" -> fs <> [] ->
  let out := upload_handler w {| body_productName := Some name; files := Some fs |} c in
  (forall k file, nth_error fs k = Some file ->
     render_fails w name file \/ store_rejects w name k file ->
     response out = {| status := 500; body := error_body s3_message |}) /\
  (forall urls, batch_locations w name fs = Some urls -> mongo_answers w = false ->
     response out = {| status := 500; body := error_body db_message |}) /\
  error_body validation_message <> error_body s3_message /\
  error_body s3_message <> error_body db_message /\
  error_body validation_message <> error_body db_message.
Proof.
  intros Hn Hf out; subst out; repeat split; try discriminate.
  - intros k file Hk Hfail.
    destruct (failing_file_rejects_join w name fs k file Hk Hfail) as [e He].
    now rewrite (upload_handler_join_rejected w c name fs e Hn Hf He).
  - intros urls Hb Hm.
    now rewrite (upload_handler_db_failed w c name fs urls Hn Hf Hb Hm).
Qed.

(** C9 at a batch whose second file cannot be decoded. *)
Lemma C9_witness :
  render_fails Demo.calm "Gold Ring" Demo.broken /\
  response (upload_handler Demo.calm
              (Demo.request "Gold Ring" [Demo.ring; Demo.broken]) []) =
    {| status := 500; body := error_body s3_message |}.
Proof.
  assert (render_fails Demo.calm "Gold Ring" Demo.broken) as H
    by (eexists; reflexivity).
  split; [exact H|].
  destruct (C9_failure_bodies Demo.calm [] "Gold Ring" [Demo.ring; Demo.broken])
    as (Hfail & _); [discriminate|discriminate|].
  apply (Hfail 1%nat Demo.broken); [reflexivity|now left].
Defined.

(** C9 as stated fails: a request whose only file cannot be rendered and a
    request whose only file the object store rejects get the same response,
    so the two error messages are not distinct. *)
Lemma C9_counterexample :
  let render_failure :=
    upload_handler Demo.calm (Demo.request "Gold Ring" [Demo.broken]) [] in
  let upload_failure :=
    upload_handler Demo.picky (Demo.request "Gold Ring" [Demo.necklace]) [] in
  render_fails Demo.calm "Gold Ring" Demo.broken /\
  store_rejects Demo.picky "Gold Ring" 0 Demo.necklace /\
  trace render_failure = [] /\
  (exists p, trace upload_failure = [S3Upload p None]) /\
  ~ (path ["error"] (body (response render_failure)) <>
     path ["error"] (body (response upload_failure))).
Proof.
  repeat split.
  - eexists; reflexivity.
  - eexists; split; reflexivity.
  - eexists; reflexivity.
  - intros H; now apply H.
Qed.

(** C10.  Every file of a request that the renderer processes is sent to
    the object store with, for body, the output of a sharp pipeline ending
    in [.jpeg({ quality: 90 })] and, for content type, the mimetype the
    file was uploaded with; the route stores nothing else.  So when that
    mimetype is not [image/jpeg], the content type stored with the object
    is not that of its JPEG bytes. *)
Theorem C10_body_is_jpeg_type_is_original
    (w : World) (c : Collection) (name : string) (fs : list File) :
  name <> "" -> fs <> [] ->
  let out := upload_handler w {| body_productName := Some name; files := Some fs |} c in
  (forall k file b,
     nth_error fs k = Some file ->
     addWatermarkAndSave w (buffer file) name = Resolved b ->
     let p := params w k file b in
     In (S3Upload p (s3_upload w p)) (trace out) /\
     Body p = b /\
     encoded_as w (Jpeg 90) (Body p) /\
     ContentType p = mimetype file /\
     (mimetype file <> jpeg_media_type -> ContentType p <> jpeg_media_type)) /\
  (forall p r,
     In (S3Upload p r) (trace out) ->
     exists k file,
       nth_error fs k = Some file /\
       encoded_as w (Jpeg 90) (Body p) /\
       ContentType p = mimetype file).
Proof.
  intros Hn Hf out; split.
  - intros k file b Hk Hr p; subst p out; cbn [Body ContentType params].
    destruct (upload_handler_trace_valid w c name fs Hn Hf) as [rest ->].
    repeat split; auto.
    + apply in_app_iff; left. now apply rendered_file_is_uploaded.
    + now apply addWatermarkAndSave_jpeg with (imageBuffer := buffer file) (label := name).
  - intros p r H; subst out.
    destruct (upload_handler_uploads w c _ p r H) as (name' & fs' & E1 & E2 & Hin).
    cbn [body_productName files] in E1, E2.
    injection E1 as <-; injection E2 as <-.
    destruct (uploads_origin w name 0 fs _ Hin) as (k & file & b & Hk & Hr & E).
    injection E as -> _; cbn [Body ContentType params].
    exists k, file; repeat split; auto.
    now apply addWatermarkAndSave_jpeg with (imageBuffer := buffer file) (label := name).
Qed.

(** C10 at the PNG of a two-file batch: the object is stored as
    [image/png] while its bytes come from the JPEG encoder. *)
Lemma C10_witness :
  let out := upload_handler Demo.calm
               (Demo.request "Gold Ring" [Demo.ring; Demo.necklace]) [] in
  let p := {| Bucket := Some "jewels";
              Key := "products/1700000000001-necklace.png";
              Body := [xff; xd8; x04; x05];
              ContentType := "image/png" |} in
  In (S3Upload p (s3_upload Demo.calm p)) (trace out) /\
  encoded_as Demo.calm (Jpeg 90) (Body p) /\
  ContentType p <> jpeg_media_type.
Proof.
  intros out p; subst out.
  destruct (C10_body_is_jpeg_type_is_original Demo.calm [] "Gold Ring"
              [Demo.ring; Demo.necklace])
    as (Hfile & _); [discriminate|discriminate|].
  destruct (Hfile 1%nat Demo.necklace [xff; xd8; x04; x05] eq_refl eq_refl)
    as (Hin & _ & Henc & _ & Hne).
  split; [exact Hin|]. split; [exact Henc|].
  apply Hne; discriminate.
Defined.

(* ================================================================== *)
(** * Further properties of the routes *)

(** ** The upload route as a whole *)

Section UploadOutcome.
Variables (w : World) (c : Collection).

Lemma batch_locations_none name fs :
  batch_locations w name fs = None <->
  exists e, Promise_all (map fst (uploadPromises w name 0 fs)) = Rejected e.
Proof.
  unfold batch_locations.
  destruct (Promise_all _) as [r|e]; split; try discriminate; eauto.
  intros [e' H]; discriminate.
Qed.

(** The four ways a request ends. *)
Lemma upload_handler_cases req :
  (falsy (body_productName req) || no_files (files req) = true /\
   upload_handler w req c = bad_request c) \/
  exists name fs,
    req = {| body_productName := Some name; files := Some fs |} /\
    name <> "" /\ fs <> [] /\
    let uploads := List.concat (map snd (uploadPromises w name 0 fs)) in
    ((batch_locations w name fs = None /\
      upload_handler w req c =
        {| response := {| status := 500; body := error_body s3_message |};
           collection := c; trace := uploads |}) \/
     (exists urls,
        batch_locations w name fs = Some urls /\ mongo_answers w = false /\
        upload_handler w req c =
          {| response := {| status := 500; body := error_body db_message |};
             collection := c;
             trace := (uploads ++ [MongoFindOneAndUpdate name urls])%list |}) \/
     (exists urls,
        batch_locations w name fs = Some urls /\ mongo_answers w = true /\
        upload_handler w req c =
          {| response :=
               {| status := 201;
                  body := JObj [ ("message", JStr success_message);
                                 ("product",
                                   toJSON (fst (findOneAndUpdate name urls c))) ] |};
             collection := snd (findOneAndUpdate name urls c);
             trace := (uploads ++ [MongoFindOneAndUpdate name urls])%list |})).
Proof.
  destruct (falsy (body_productName req) || no_files (files req)) eqn:V.
  - left; split; [reflexivity|now apply upload_handler_invalid].
  - right. destruct (upload_handler_valid req V) as (name & fs & E1 & E2 & Hn & Hf).
    exists name, fs. destruct req as [n f]; simpl in E1, E2; subst n f.
    repeat split; auto.
    destruct (batch_locations w name fs) as [urls|] eqn:B.
    + destruct (mongo_answers w) eqn:M.
      * right; right; exists urls; repeat split; auto.
        now apply upload_handler_stored.
      * right; left; exists urls; repeat split; auto.
        now apply upload_handler_db_failed.
    + left; split; [reflexivity|].
      apply batch_locations_none in B as [e He].
      now apply upload_handler_join_rejected with (e := e).
Qed.
End UploadOutcome.

(** ** What a batch sends to the object store *)

Section BatchUploads.
Variables (w : World) (name : string).

Lemma uploads_are_S3 i fs ev :
  In ev (List.concat (map snd (uploadPromises w name i fs))) ->
  is_S3Upload ev = true /\ is_MongoWrite ev = false.
Proof.
  intros H; destruct (uploads_origin w name i fs ev H) as (k & f & b & _ & _ & ->).
  now split.
Qed.

Lemma uploadPromise_at_most_one i file :
  (List.length (snd (uploadPromise w name i file)) <= 1)%nat.
Proof.
  destruct (uploadPromise_cases w name i file)
    as [(e & _ & ->)|[(b & d & _ & _ & ->)|(b & e & _ & _ & ->)]]; simpl; lia.
Qed.

Lemma uploads_length_le i fs :
  (List.length (List.concat (map snd (uploadPromises w name i fs))) <=
   List.length fs)%nat.
Proof.
  revert i; induction fs as [|f fs IH]; intros i; simpl; [lia|].
  rewrite length_app.
  pose proof (uploadPromise_at_most_one i f). specialize (IH (S i)). lia.
Qed.

(** When the join resolves, the batch made one upload per file, all of them
    accepted, and their locations are the results, in order. *)
Lemma uploads_of_resolved_join i fs r :
  Promise_all (map fst (uploadPromises w name i fs)) = Resolved r ->
  map uploaded_location (List.concat (map snd (uploadPromises w name i fs))) =
    map (fun d => Some (Location d)) r.
Proof.
  revert i r; induction fs as [|f fs IH]; intros i r; simpl.
  - now intros [= <-].
  - destruct (uploadPromise_cases w name i f)
      as [(e & _ & E)|[(b & d & _ & _ & E)|(b & e & _ & _ & E)]];
      rewrite E; simpl; try discriminate.
    destruct (Promise_all _) as [r'|] eqn:P; [|discriminate].
    intros [= <-]; simpl. now rewrite (IH _ _ P).
Qed.

(** When the renderer fails on every file, the batch uploads nothing. *)
Lemma no_render_no_uploads i fs :
  (forall file, In file fs -> render_fails w name file) ->
  List.concat (map snd (uploadPromises w name i fs)) = [] /\
  (fs <> [] ->
   exists e, Promise_all (map fst (uploadPromises w name i fs)) = Rejected e).
Proof.
  revert i; induction fs as [|f fs IH]; intros i Hall; simpl.
  - split; [reflexivity|]. intros H; now elim H.
  - destruct (Hall f (or_introl eq_refl)) as [e He].
    unfold uploadPromise; rewrite He; simpl.
    split; [|intros _; now exists e].
    apply IH. intros file Hin; apply Hall; now right.
Qed.
End BatchUploads.

(** ** The collection across an upsert *)

Section Upsert.
Implicit Types (c : Collection) (urls : list string).

Lemma recorded_after_upsert n name urls c :
  recorded n (snd (findOneAndUpdate name urls c)) =
    (recorded n c ++ (if String.eqb n name then urls else []))%list.
Proof.
  destruct (findOneAndUpdate_spec name urls c) as (_ & Hsame & Hother).
  destruct (String.eqb_spec n name) as [->|Hne].
  - unfold recorded at 1; now rewrite Hsame.
  - unfold recorded; rewrite (Hother n Hne); now rewrite app_nil_r.
Qed.

Lemma length_after_upsert name urls c :
  List.length (snd (findOneAndUpdate name urls c)) =
    match findOne name c with
    | Some _ => List.length c
    | None => S (List.length c)
    end.
Proof.
  unfold findOneAndUpdate.
  destruct (findOne name c) as [d|] eqn:E.
  - destruct (pushEach_some name urls c d E) as (c' & -> & _ & Hn & _); simpl.
    apply (f_equal (@List.length _)) in Hn. now rewrite !length_map in Hn.
  - rewrite (pushEach_none _ urls _ E); simpl.
    rewrite length_app; simpl; lia.
Qed.

Lemma found_after_upsert n name urls c :
  findOne n c <> None -> findOne n (snd (findOneAndUpdate name urls c)) <> None.
Proof.
  destruct (findOneAndUpdate_spec name urls c) as (_ & Hsame & Hother).
  destruct (String.eqb_spec n name) as [->|Hne].
  - intros _; now rewrite Hsame.
  - now rewrite (Hother n Hne).
Qed.
End Upsert.

(** X1.  The status of an upload response is 400, 500 or 201.  It is 400
    exactly when the product name is missing or empty or there is no file;
    it is 201 exactly when the request passes that check, every file is
    rendered and stored, and MongoDB answers the write. *)
Theorem upload_status_characterised (w : World) (c : Collection) (req : Request) :
  let out := upload_handler w req c in
  (status (response out) = 400 <->
   falsy (body_productName req) || no_files (files req) = true) /\
  (status (response out) = 201 <->
   exists name fs urls,
     req = {| body_productName := Some name; files := Some fs |} /\
     name <> "" /\ fs <> [] /\
     batch_locations w name fs = Some urls /\ mongo_answers w = true) /\
  (status (response out) = 400 \/ status (response out) = 500 \/
   status (response out) = 201).
Proof.
  intros out; subst out.
  destruct (upload_handler_cases w c req)
    as [[V ->]|(name & fs & -> & Hn & Hf &
                [[B ->]|[(urls & B & M & ->)|(urls & B & M & ->)]])];
    cbn [response status bad_request body_productName files].
  - repeat split; auto; try discriminate.
    intros (name & fs & urls & -> & Hn & Hf & _).
    cbn [body_productName files] in V.
    rewrite valid_request_check in V by assumption; discriminate.
  - rewrite valid_request_check by assumption.
    repeat split; auto; try discriminate.
    intros (n' & f' & urls & [= <- <-] & _ & _ & B' & _); congruence.
  - rewrite valid_request_check by assumption.
    repeat split; auto; try discriminate.
    intros (n' & f' & u' & [= <- <-] & _ & _ & _ & M'); congruence.
  - rewrite valid_request_check by assumption.
    repeat split; auto; try discriminate.
    intros _; now exists name, fs, urls.
Qed.

(** X2.  A request that is not answered with 201 leaves the collection as
    it was, and so leaves every later fetch as it was. *)
Theorem collection_changes_only_with_201
    (w : World) (c : Collection) (req : Request) :
  status (response (upload_handler w req c)) <> 201 ->
  collection (upload_handler w req c) = c /\
  (forall w' n, fetch_handler w' n (collection (upload_handler w req c)) =
                fetch_handler w' n c).
Proof.
  intros H.
  assert (collection (upload_handler w req c) = c) as E.
  { destruct (upload_handler_cases w c req)
      as [[V E]|(name & fs & -> & Hn & Hf &
                 [[B E]|[(urls & B & M & E)|(urls & B & M & E)]])];
      rewrite E in H |- *; try reflexivity.
    now elim H. }
  split; [exact E|]. intros w' n; now rewrite E.
Qed.

Lemma collection_changes_only_with_201_witness :
  status (response (upload_handler Demo.picky
                      (Demo.request "Gold Ring" [Demo.ring; Demo.necklace])
                      [Build_Image "Pearl" []])) <> 201 /\
  collection (upload_handler Demo.picky
                (Demo.request "Gold Ring" [Demo.ring; Demo.necklace])
                [Build_Image "Pearl" []]) = [Build_Image "Pearl" []].
Proof.
  assert (status (response (upload_handler Demo.picky
                      (Demo.request "Gold Ring" [Demo.ring; Demo.necklace])
                      [Build_Image "Pearl" []])) <> 201) as H
    by (vm_compute; discriminate).
  split; [exact H|].
  exact (proj1 (collection_changes_only_with_201 _ _ _ H)).
Defined.

(** X3.  An upload request never touches the record of a product other than
    the one it names: a lookup of any other name gives what it gave
    before. *)
Theorem other_products_untouched
    (w : World) (c : Collection) (req : Request) (other : string) :
  body_productName req <> Some other ->
  findOne other (collection (upload_handler w req c)) = findOne other c.
Proof.
  intros H.
  destruct (upload_handler_cases w c req)
    as [[V ->]|(name & fs & -> & Hn & Hf &
                [[B ->]|[(urls & B & M & ->)|(urls & B & M & ->)]])];
    try reflexivity.
  cbn [collection].
  destruct (findOneAndUpdate_spec name urls c) as (_ & _ & Hother).
  apply Hother. intros ->; now apply H.
Qed.

Lemma other_products_untouched_witness :
  body_productName (Demo.request "Gold Ring" [Demo.ring]) <> Some "Pearl" /\
  findOne "Pearl"
    (collection (upload_handler Demo.calm (Demo.request "Gold Ring" [Demo.ring])
                   [Build_Image "Pearl" ["https://jewels.s3.amazonaws.com/p.jpg"]])) =
  Some (Build_Image "Pearl" ["https://jewels.s3.amazonaws.com/p.jpg"]).
Proof.
  assert (body_productName (Demo.request "Gold Ring" [Demo.ring]) <> Some "Pearl")
    as H by discriminate.
  split; [exact H|].
  now rewrite (other_products_untouched Demo.calm _ _ "Pearl" H).
Defined.

(** X4.  Records are append-only across an upload request: for every name,
    the locations recorded after the request are those recorded before,
    followed by new ones (if any); a name that had a record keeps one; and
    the collection keeps its size or grows by one record. *)
Theorem records_are_append_only
    (w : World) (c : Collection) (req : Request) (n : string) :
  let c' := collection (upload_handler w req c) in
  (exists added, recorded n c' = (recorded n c ++ added)%list) /\
  (findOne n c <> None -> findOne n c' <> None) /\
  (List.length c <= List.length c' <= S (List.length c))%nat.
Proof.
  intros c'; subst c'.
  destruct (upload_handler_cases w c req)
    as [[V ->]|(name & fs & -> & Hn & Hf &
                [[B ->]|[(urls & B & M & ->)|(urls & B & M & ->)]])];
    cbn [collection bad_request];
    try (split; [exists []; now rewrite app_nil_r|split; [auto|lia]]).
  split; [|split].
  - eexists; apply recorded_after_upsert.
  - apply found_after_upsert.
  - rewrite length_after_upsert. destruct (findOne name c); lia.
Qed.

(** X5.  When every file is rendered and stored but MongoDB rejects the
    write, the response is 500 with the database message and the collection
    is as it was, although every file of the batch is in the object store:
    the upload of each file is in the trace, accepted, at the location the
    write would have recorded. *)
Theorem failed_write_leaves_stored_objects
    (w : World) (c : Collection) (name : string) (fs : list File)
    (urls : list string) :
  name <> "" -> fs <> [] ->
  batch_locations w name fs = Some urls ->
  mongo_answers w = false ->
  let out := upload_handler w {| body_productName := Some name; files := Some fs |} c in
  response out = {| status := 500; body := error_body db_message |} /\
  collection out = c /\
  (forall k file, nth_error fs k = Some file ->
     exists b data,
       In (S3Upload (params w k file b) (Some data)) (trace out) /\
       nth_error urls k = Some (Location data)).
Proof.
  intros Hn Hf Hb Hm out; subst out.
  rewrite (upload_handler_db_failed w c name fs urls Hn Hf Hb Hm).
  cbn [response collection trace]. repeat split.
  intros k file Hk.
  destruct (batch_locations_nth w name fs urls k file Hb Hk)
    as (b & data & Hr & Hs & Hu).
  exists b, data; split; [|exact Hu].
  apply in_app_iff; left. rewrite <- Hs.
  now apply rendered_file_is_uploaded.
Qed.

Lemma failed_write_leaves_stored_objects_witness :
  mongo_answers Cases.offline = false /\
  let out := upload_handler Cases.offline
               (Demo.request "Gold Ring" [Demo.ring]) [] in
  status (response out) = 500 /\ collection out = [] /\
  exists p data, In (S3Upload p (Some data)) (trace out).
Proof.
  split; [reflexivity|].
  destruct (failed_write_leaves_stored_objects Cases.offline [] "Gold Ring"
              [Demo.ring]
              [ "https://jewels.s3.amazonaws.com/products/1700000000000-ring.jpg" ])
    as (Hr & Hc & Hobj);
    [ discriminate | discriminate | reflexivity | reflexivity | ].
  unfold Demo.request. split; [now rewrite Hr|]. split; [exact Hc|].
  destruct (Hobj 0%nat Demo.ring eq_refl) as (b & data & Hin & _).
  now exists (params Cases.offline 0 Demo.ring b), data.
Defined.

(** X6.  A batch that fails does not take back what it stored: when one
    file fails (in the renderer or at the object store) and another file of
    the same batch is rendered and accepted by the store, the response is
    500, the collection is as it was, and the accepted upload is in the
    trace all the same. *)
Theorem failed_batch_keeps_stored_objects
    (w : World) (c : Collection) (name : string) (fs : list File)
    (k j : nat) (failing stored : File) (b : Buffer) (data : ManagedUpload) :
  name <> "" ->
  nth_error fs k = Some failing ->
  render_fails w name failing \/ store_rejects w name k failing ->
  nth_error fs j = Some stored ->
  addWatermarkAndSave w (buffer stored) name = Resolved b ->
  s3_upload w (params w j stored b) = Some data ->
  let out := upload_handler w {| body_productName := Some name; files := Some fs |} c in
  response out = {| status := 500; body := error_body s3_message |} /\
  collection out = c /\
  In (S3Upload (params w j stored b) (Some data)) (trace out).
Proof.
  intros Hn Hk Hfail Hj Hr Hs out; subst out.
  assert (fs <> []) as Hf by (intros ->; destruct k; discriminate).
  destruct (failing_file_rejects_join w name fs k failing Hk Hfail) as [e He].
  rewrite (upload_handler_join_rejected w c name fs e Hn Hf He).
  cbn [response collection trace]. repeat split.
  rewrite <- Hs. now apply rendered_file_is_uploaded.
Qed.

Lemma failed_batch_keeps_stored_objects_witness :
  render_fails Demo.calm "Gold Ring" Demo.broken /\
  let out := upload_handler Demo.calm
               (Demo.request "Gold Ring" [Demo.ring; Demo.broken]) [] in
  status (response out) = 500 /\ collection out = [] /\
  exists p data, In (S3Upload p (Some data)) (trace out).
Proof.
  assert (render_fails Demo.calm "Gold Ring" Demo.broken) as H
    by (eexists; reflexivity).
  split; [exact H|].
  destruct (failed_batch_keeps_stored_objects Demo.calm [] "Gold Ring"
              [Demo.ring; Demo.broken] 1 0 Demo.broken Demo.ring
              [xff; xd8; x01; x02; x03]
              {| Location := "https://jewels.s3.amazonaws.com/products/1700000000000-ring.jpg" |})
    as (Hr & Hc & Hin);
    [ discriminate | reflexivity | now left | reflexivity | reflexivity
    | reflexivity | ].
  unfold Demo.request. split; [now rewrite Hr|]. split; [exact Hc|].
  eexists _, _; exact Hin.
Defined.

(** X7.  A request answered with 201 made exactly one upload per file, each
    accepted by the store, and then exactly one database write, as its last
    call.  The locations written are those the uploads returned, whatever
    the order in which the uploads were made; they are written in the order
    of the files: the location of index k is the one the store returned for
    the file of index k. *)
Theorem successful_request_trace
    (w : World) (c : Collection) (name : string) (fs : list File)
    (urls : list string) :
  name <> "" -> fs <> [] ->
  batch_locations w name fs = Some urls ->
  mongo_answers w = true ->
  let out := upload_handler w {| body_productName := Some name; files := Some fs |} c in
  exists uploads,
    trace out = (uploads ++ [MongoFindOneAndUpdate name urls])%list /\
    List.length uploads = List.length fs /\
    (forall ev, In ev uploads -> exists p data, ev = S3Upload p (Some data)) /\
    Permutation (map uploaded_location uploads) (map Some urls) /\
    (forall k file, nth_error fs k = Some file ->
       exists b data,
         In (S3Upload (params w k file b) (Some data)) uploads /\
         nth_error urls k = Some (Location data)).
Proof.
  intros Hn Hf Hb Hm out; subst out.
  rewrite (upload_handler_stored w c name fs urls Hn Hf Hb Hm).
  cbn [trace]. eexists; split; [reflexivity|].
  pose proof Hb as Hb'. unfold batch_locations in Hb'.
  destruct (Promise_all _) as [r|e] eqn:P; [|discriminate].
  injection Hb' as <-.
  assert (map uploaded_location
            (List.concat (map snd (uploadPromises w name 0 fs))) =
          map Some (map Location r)) as E
    by (rewrite (uploads_of_resolved_join w name 0 fs r P), map_map;
        reflexivity).
  split; [|split; [|split]].
  - apply (f_equal (@List.length _)) in E. rewrite !length_map in E.
    rewrite E. apply Promise_all_length in P.
    now rewrite P, length_map, uploadPromises_length.
  - intros ev Hev.
    assert (In (uploaded_location ev) (map Some (map Location r))) as Hloc
      by (rewrite <- E; now apply in_map).
    apply in_map_iff in Hloc as (url & Hurl & _).
    destruct ev as [p [data|]|]; try discriminate. now exists p, data.
  - now rewrite E.
  - intros k file Hk.
    destruct (batch_locations_nth w name fs _ k file Hb Hk)
      as (b & data & Hr & Hs & Hu).
    exists b, data; split; [|exact Hu].
    rewrite <- Hs. now apply rendered_file_is_uploaded.
Qed.

Lemma successful_request_trace_witness :
  exists uploads,
    trace (upload_handler Demo.calm
             (Demo.request "Gold Ring" [Demo.ring; Demo.necklace]) []) =
      (uploads ++
       [MongoFindOneAndUpdate "Gold Ring"
          [ "https://jewels.s3.amazonaws.com/products/1700000000000-ring.jpg";
            "https://jewels.s3.amazonaws.com/products/1700000000001-necklace.png" ]])%list /\
    List.length uploads = 2%nat.
Proof.
  destruct (successful_request_trace Demo.calm [] "Gold Ring"
              [Demo.ring; Demo.necklace]
              [ "https://jewels.s3.amazonaws.com/products/1700000000000-ring.jpg";
                "https://jewels.s3.amazonaws.com/products/1700000000001-necklace.png" ])
    as (uploads & Ht & Hl & _);
    [ discriminate | discriminate | reflexivity | reflexivity | ].
  exists uploads; split; [exact Ht|exact Hl].
Defined.

Lemma filter_none {A} (f : A -> bool) (l : list A) :
  (forall x, In x l -> f x = false) -> filter f l = [].
Proof.
  induction l as [|a l IH]; simpl; intros H; [reflexivity|].
  rewrite (H a (or_introl eq_refl)). apply IH. intros x Hx; apply H; now right.
Qed.

(** X8.  Whatever the request and the outcome, the route makes at most one
    upload per file it received and at most one database write. *)
Theorem at_most_one_upload_per_file
    (w : World) (c : Collection) (req : Request) :
  let out := upload_handler w req c in
  (List.length (filter is_S3Upload (trace out)) <=
   match files req with Some fs => List.length fs | None => 0 end)%nat /\
  (List.length (filter is_MongoWrite (trace out)) <= 1)%nat.
Proof.
  intros out; subst out.
  assert (forall name fs,
            filter is_S3Upload
              (List.concat (map snd (uploadPromises w name 0 fs))) =
              List.concat (map snd (uploadPromises w name 0 fs)) /\
            filter is_MongoWrite
              (List.concat (map snd (uploadPromises w name 0 fs))) = []) as Hup.
  { intros name fs; split.
    - apply forallb_filter_id, forallb_forall.
      intros ev Hev; now apply (uploads_are_S3 w name 0 fs).
    - apply filter_none. intros ev Hev.
      now destruct (uploads_are_S3 w name 0 fs ev Hev). }
  destruct (upload_handler_cases w c req)
    as [[V ->]|(name & fs & -> & Hn & Hf &
                [[B ->]|[(urls & B & M & ->)|(urls & B & M & ->)]])];
    cbn [trace bad_request files filter List.length];
    try (split; lia);
    destruct (Hup name fs) as [E1 E2];
    rewrite ?filter_app, ?E1, ?E2; cbn [filter is_S3Upload is_MongoWrite];
    rewrite ?app_nil_r; cbn [List.length app];
    (split; [apply uploads_length_le | lia]).
Qed.

(** X9.  When the renderer fails on every file of a request that passes
    validation, nothing is sent to the object store and nothing is written:
    the response is 500 and the trace is empty. *)
Theorem no_render_no_upload
    (w : World) (c : Collection) (name : string) (fs : list File) :
  name <> "" -> fs <> [] ->
  (forall file, In file fs -> render_fails w name file) ->
  upload_handler w {| body_productName := Some name; files := Some fs |} c =
    {| response := {| status := 500; body := error_body s3_message |};
       collection := c; trace := [] |}.
Proof.
  intros Hn Hf Hall.
  destruct (no_render_no_uploads w name 0 fs Hall) as [Hnone Hrej].
  destruct (Hrej Hf) as [e He].
  rewrite (upload_handler_join_rejected w c name fs e Hn Hf He).
  now rewrite Hnone.
Qed.

Lemma no_render_no_upload_witness :
  (forall file, In file [Demo.broken] -> render_fails Demo.calm "Gold Ring" file) /\
  trace (upload_handler Demo.calm (Demo.request "Gold Ring" [Demo.broken]) []) = [].
Proof.
  assert (forall file, In file [Demo.broken] ->
                       render_fails Demo.calm "Gold Ring" file) as H.
  { intros file [<-|[]]. eexists; reflexivity. }
  split; [exact H|].
  unfold Demo.request.
  now rewrite (no_render_no_upload Demo.calm [] "Gold Ring" [Demo.broken]).
Defined.

(** X10.  When the overlay template [no.svg] cannot be read, the renderer
    fails on every image and every label, so every request that passes
    validation is answered with 500 and uploads nothing. *)
Theorem unreadable_template_fails_every_upload
    (w : World) (c : Collection) (name : string) (fs : list File) :
  fs_readFileSync w (path_join (dirname w) "no.svg") = None ->
  (forall imageBuffer label,
     exists e, addWatermarkAndSave w imageBuffer label = Rejected e) /\
  (name <> "" -> fs <> [] ->
   upload_handler w {| body_productName := Some name; files := Some fs |} c =
     {| response := {| status := 500; body := error_body s3_message |};
        collection := c; trace := [] |}).
Proof.
  intros Hread.
  assert (forall imageBuffer label,
            exists e, addWatermarkAndSave w imageBuffer label = Rejected e) as H.
  { intros imageBuffer label; unfold addWatermarkAndSave.
    destruct (sharp_metadata w imageBuffer) as [m|]; cbn [orThrow andThen].
    - rewrite Hread; cbn [orThrow andThen]. now exists FsError.
    - now exists SharpError. }
  split; [exact H|].
  intros Hn Hf. apply no_render_no_upload; auto.
  intros file _; apply H.
Qed.

Lemma unreadable_template_fails_every_upload_witness :
  fs_readFileSync Cases.no_template
    (path_join (dirname Cases.no_template) "no.svg") = None /\
  upload_handler Cases.no_template
    (Demo.request "Gold Ring" [Demo.ring; Demo.necklace]) [] =
    {| response := {| status := 500; body := error_body s3_message |};
       collection := []; trace := [] |}.
Proof.
  split; [reflexivity|].
  destruct (unreadable_template_fails_every_upload Cases.no_template []
              "Gold Ring" [Demo.ring; Demo.necklace] eq_refl) as [_ H].
  apply H; discriminate.
Defined.

(** ** Object keys *)

Section Keys.

Lemma all_digits_uint d : all_digits (NilEmpty.string_of_uint d) = true.
Proof. induction d; simpl; auto. Qed.

Lemma all_digits_Number_toString n :
  0 <= n -> all_digits (Number_toString n) = true.
Proof.
  unfold Number_toString; destruct n as [|p|p]; intros H; [reflexivity| |lia].
  cbn [Z.to_int NilZero.string_of_int]. unfold NilZero.string_of_uint.
  destruct (Pos.to_uint p); auto using all_digits_uint.
  all: change (all_digits (NilEmpty.string_of_uint ?d) = true);
    apply all_digits_uint.
Qed.

Lemma to_int_proper n : Z.to_int n <> Decimal.Pos Decimal.Nil /\
                        Z.to_int n <> Decimal.Neg Decimal.Nil.
Proof.
  destruct n as [|p|p]; simpl; split; try discriminate;
    intros [= H]; now apply (DecimalPos.Unsigned.to_uint_nonnil p).
Qed.

(** Two integers print alike only when they are equal. *)
Lemma Number_toString_inj n n' :
  Number_toString n = Number_toString n' -> n = n'.
Proof.
  unfold Number_toString; intros H.
  apply DecimalZ.to_int_inj.
  destruct (to_int_proper n) as [H1 H2], (to_int_proper n') as [H1' H2'].
  pose proof (NilZero.isi _ H1 H2) as E.
  rewrite H, (NilZero.isi _ H1' H2') in E. now injection E.
Qed.

(** A run of digits ends at the first dash. *)
Lemma digits_then_dash s s' r r' :
  all_digits s = true -> all_digits s' = true ->
  s ++ "-" ++ r = s' ++ "-" ++ r' -> s = s' /\ r = r'.
Proof.
  revert s'; induction s as [|c s IH]; intros [|c' s']; simpl;
    intros Hs Hs' E.
  - now injection E.
  - injection E as <- _. discriminate.
  - injection E as -> _. discriminate.
  - injection E as <- E.
    apply andb_true_iff in Hs as [_ Hs]. apply andb_true_iff in Hs' as [_ Hs'].
    destruct (IH s' Hs Hs' E) as [-> ->]. now split.
Qed.
End Keys.

(** X11.  Two uploads get the same object key exactly when [Date.now()]
    gave them the same millisecond and their files have the same original
    name (timestamps are not negative): files of different names never
    collide, files of the same name collide when processed within one
    millisecond. *)
Theorem keys_collide_exactly
    (w w' : World) (i j : nat) (f g : File) (b b' : Buffer) :
  0 <= Date_now w i -> 0 <= Date_now w' j ->
  (Key (params w i f b) = Key (params w' j g b') <->
   Date_now w i = Date_now w' j /\ originalname f = originalname g).
Proof.
  intros Hi Hj; cbn [Key params]; split.
  - intros E. injection E as E.
    apply digits_then_dash in E as [E1 E2];
      auto using all_digits_Number_toString.
    split; [now apply Number_toString_inj|exact E2].
  - now intros [-> ->].
Qed.

Lemma keys_collide_exactly_witness :
  0 <= Date_now Demo.calm 0 /\ 0 <= Date_now Demo.calm 1 /\
  Key (params Demo.calm 0 Demo.ring []) <> Key (params Demo.calm 1 Demo.ring []).
Proof.
  assert (0 <= Date_now Demo.calm 0) as H0 by (simpl; lia).
  assert (0 <= Date_now Demo.calm 1) as H1 by (simpl; lia).
  split; [exact H0|]. split; [exact H1|].
  intros E.
  apply (keys_collide_exactly Demo.calm Demo.calm 0 1 Demo.ring Demo.ring [] [] H0 H1)
    in E as [E _].
  discriminate E.
Defined.

(** ** The overlay, at its edges *)

Section Overlay.
Implicit Types (s pat pre post a b : string).



End Overlay.





(** X14.  When the template (after the product name went into it) has no
    closing [svg] tag, the second replacement finds nothing: the overlay
    is that text unchanged, with no text element in it, and the renderer
    goes on with it. *)
Theorem template_without_closing_tag_gets_no_text
    (template : string) (m : Metadata) (label : string) :
  (forall a b,
     replace "{{PRODUCT_NAME}}" label template <> a ++ "</svg>" ++ b) ->
  updatedSvgString template m label =
    replace "{{PRODUCT_NAME}}" label template.
Proof.
  intros H; unfold updatedSvgString, replace at 1.
  now rewrite (split_at_first_none _ _ H).
Qed.

Lemma template_without_closing_tag_gets_no_text_witness :
  updatedSvgString Cases.unclosed Cases.md "Gold Ring" =
    "<svg><title>Gold Ring</title>".
Proof.
  rewrite (template_without_closing_tag_gets_no_text Cases.unclosed Cases.md
             "Gold Ring"); [reflexivity|].
  intros a b E.
  assert (split_at_first "</svg>" (a ++ "</svg>" ++ b) = None) as N
    by (rewrite <- E; reflexivity).
  destruct (split_at_first_complete "</svg>" a b) as (pre & post & S & _).
  rewrite S in N; discriminate.
Defined.

(** X15.  When the template (after the product name went into it) has a
    closing [svg] tag, the text element is put in place of the first one:
    no occurrence of the tag starts before the place of insertion, what
    precedes it and what follows it are kept. *)
Theorem text_replaces_first_closing_tag
    (template : string) (m : Metadata) (label a b : string) :
  replace "{{PRODUCT_NAME}}" label template = a ++ "</svg>" ++ b ->
  exists pre post,
    replace "{{PRODUCT_NAME}}" label template = pre ++ "</svg>" ++ post /\
    (String.length pre <= String.length a)%nat /\
    updatedSvgString template m label =
      pre ++ text_open (positionLeft m) (positionBottom m) ++
      GetSubstitution "</svg>" pre post (text_rest label) ++ post.
Proof.
  intros E.
  destruct (split_at_first_complete "</svg>" a b) as (pre & post & S & L).
  rewrite <- E in S.
  exists pre, post; split; [now apply split_at_first_spec|].
  split; [exact L|].
  unfold updatedSvgString, replace at 1; rewrite S; unfold text_element.
  rewrite GetSubstitution_plain_prefix by apply no_dollar_text_open.
  now rewrite append_assoc.
Qed.

Lemma text_replaces_first_closing_tag_witness :
  exists pre post,
    replace "{{PRODUCT_NAME}}" "Gold Ring" Cases.two_closings =
      pre ++ "</svg>" ++ post /\
    (String.length pre <= 18)%nat /\
    updatedSvgString Cases.two_closings Cases.md "Gold Ring" =
      pre ++ text_open (positionLeft Cases.md) (positionBottom Cases.md) ++
      GetSubstitution "</svg>" pre post (text_rest "Gold Ring") ++ post.
Proof.
  exact (text_replaces_first_closing_tag Cases.two_closings Cases.md "Gold Ring"
           "<svg><g></svg></g>" "" eq_refl).
Defined.

(** X16.  The status of a fetch is 200, 404 or 500: 500 (with the body
    [{ error: 'Failed to fetch images' }]) exactly when MongoDB rejects the
    query, whether or not a record exists; 404 exactly when it answers and
    no record carries the name; 200 exactly when it answers and one does. *)
Theorem fetch_status_characterised (w : World) (c : Collection) (name : string) :
  let res := fetch_handler w name c in
  (status res = 500 <-> mongo_answers w = false) /\
  (status res = 500 -> body res = error_body "Failed to fetch images") /\
  (status res = 404 <-> mongo_answers w = true /\ findOne name c = None) /\
  (status res = 200 <-> mongo_answers w = true /\ findOne name c <> None).
Proof.
  unfold fetch_handler.
  destruct (mongo_answers w), (findOne name c) as [d|]; cbn [status body];
    repeat split; try discriminate; try reflexivity;
    try (intros [_ H]; try discriminate; now elim H);
    intros [H _]; discriminate.
Qed.

(** X17.  Every object the upload route sends to the store goes to the
    bucket named by [AWS_S3_BUCKET_NAME], under a key that starts with
    [products/] and ends with the original name of one of the request's
    files. *)
Theorem uploads_stay_under_products
    (w : World) (c : Collection) (req : Request)
    (p : UploadParams) (r : option ManagedUpload) :
  In (S3Upload p r) (trace (upload_handler w req c)) ->
  Bucket p = AWS_S3_BUCKET_NAME w /\
  exists fs file stamp,
    files req = Some fs /\ In file fs /\
    Key p = "products/" ++ stamp ++ "-" ++ originalname file.
Proof.
  intros H.
  destruct (upload_handler_uploads w c req p r H) as (name & fs & _ & Hfs & Hin).
  destruct (uploads_origin w name 0 fs _ Hin) as (k & file & b & Hk & _ & E).
  injection E as -> _. split; [reflexivity|].
  exists fs, file, (Number_toString (Date_now w (0 + k))).
  repeat split; auto. now apply nth_error_In with (n := k).
Qed.

Lemma uploads_stay_under_products_witness :
  exists p r,
    In (S3Upload p r)
       (trace (upload_handler Demo.picky
                 (Demo.request "Gold Ring" [Demo.ring; Demo.necklace]) [])) /\
    Bucket p = Some "jewels" /\
    Key p = "products/1700000000001-necklace.png".
Proof.
  assert (In (S3Upload (params Demo.picky 1 Demo.necklace [xff; xd8; x04; x05]) None)
             (trace (upload_handler Demo.picky
                       (Demo.request "Gold Ring" [Demo.ring; Demo.necklace]) [])))
    as Hin by (right; left; reflexivity).
  exists (params Demo.picky 1 Demo.necklace [xff; xd8; x04; x05]), None.
  split; [exact Hin|].
  destruct (uploads_stay_under_products _ _ _ _ _ Hin) as [Hb _].
  split; [exact Hb|reflexivity].
Defined.
